(** * YoutubeCrawler: the request orchestrator of [Crawler/YoutubeData/YoutubeCrawler.py]

    A shallow embedding of the class [YoutubeCrawler]: its key pool, the
    retry loop of [_response], the pagination loop of [_video_desc], the
    per-channel statistics of [channel_countstats], the chunking of
    [_split_list] and the summation of [statistics_sum].

    The Google API client is the only collaborator that is not part of the
    repository; it is a parameter of the development (an [execute] function
    over an abstract world).  Loops that the source leaves unbounded are
    given fuel, and running out of fuel is a result of its own. *)

From Stdlib Require Import ZArith QArith Ascii String.
From stdpp Require Import gmap strings list fin_maps.

Set Warnings "-register-all".

Local Open Scope string_scope.
Local Open Scope list_scope.
Local Open Scope Z_scope.

(** ** Python values *)

(** JSON-like Python values.  A [dict] whose content comes from a response
    is kept as the list of its items in order, keys being distinct.
    [PFloat] holds the exact quotient that Python rounds to a double. *)
Inductive pyval : Type :=
| PNone
| PBool (b : bool)
| PInt (z : Z)
| PFloat (q : Q)
| PStr (s : string)
| PList (l : list pyval)
| PDict (d : list (string * pyval)).

(** Truth value testing, as [if value:] and [while not response:] do it. *)
Definition truthy (v : pyval) : bool :=
  match v with
  | PNone => false
  | PBool b => b
  | PInt z => negb (z =? 0)
  | PFloat q => negb (Qeq_bool q 0)
  | PStr s => negb (String.eqb s "")
  | PList l => match l with [] => false | _ => true end
  | PDict d => match d with [] => false | _ => true end
  end.

(** ** Exceptions and results *)

Inductive exn : Type :=
| StopIteration
| KeyError (key : string)
| TypeError
| ValueError
| AttributeError
| ZeroDivisionError
| NameError (name : string)
| UnboundLocalError (name : string)
| HttpError (status : Z).

(** What running a piece of code gives: a value, an exception that
    propagates, or no answer within the fuel given to its loops. *)
Inductive res (A : Type) : Type :=
| Ret (a : A)
| Raise (e : exn)
| OutOfFuel.
Arguments Ret {A} a.
Arguments Raise {A} e.
Arguments OutOfFuel {A}.

Definition res_bind {A B : Type} (m : res A) (k : A → res B) : res B :=
  match m with
  | Ret a => k a
  | Raise e => Raise e
  | OutOfFuel => OutOfFuel
  end.

(** Sequencing of code that can raise. *)
Declare Scope res_scope.
Delimit Scope res_scope with res.
Bind Scope res_scope with res.

Notation "'let*' x ':=' m 'in' k" := (res_bind m (λ x, k))
  (at level 10, x name, m at level 100, k at level 200,
   format "'[v' 'let*'  x  ':='  m  'in' '/' k ']'") : res_scope.

Notation "'let*' ( x , y ) ':=' m 'in' k" :=
  (res_bind m (λ xy, let '(x, y) := xy in k))
  (at level 10, x name, y name, m at level 100, k at level 200,
   format "'[v' 'let*'  ( x ,  y )  ':='  m  'in' '/' k ']'") : res_scope.

Local Open Scope res_scope.

(** [m[key]] on a dict: the value, or [KeyError]. *)
Fixpoint dict_get (d : list (string * pyval)) (key : string) : option pyval :=
  match d with
  | [] => None
  | (k, v) :: d' => if String.eqb k key then Some v else dict_get d' key
  end.

Definition subscript (v : pyval) (key : string) : res pyval :=
  match v with
  | PDict d => match dict_get d key with
               | Some x => Ret x
               | None => Raise (KeyError key)
               end
  | _ => Raise TypeError
  end.

(** [v[k1][k2]...]. *)
Definition path (v : pyval) (ks : list string) : res pyval :=
  (fix go (v : pyval) (ks : list string) : res pyval :=
     match ks with
     | [] => Ret v
     | k :: ks' => match subscript v k with
                   | Ret x => go x ks'
                   | r => r
                   end
     end) v ks.

(** Iterating over a value with [for ... in]: a list gives its elements,
    a dict its keys, a string its characters. *)
Definition iterate (v : pyval) : res (list pyval) :=
  match v with
  | PList l => Ret l
  | PDict d => Ret (map (λ kv, PStr kv.1) d)
  | PStr s => Ret (map (λ c, PStr (String c EmptyString)) (list_ascii_of_string s))
  | _ => Raise TypeError
  end.

(** [key in d.keys()]. *)
Definition dict_mem (d : list (string * pyval)) (key : string) : bool :=
  match dict_get d key with Some _ => true | None => false end.

(** [d[key] = v]: an existing key keeps its place, a new one goes last. *)
Fixpoint dict_set (d : list (string * pyval)) (key : string) (v : pyval)
  : list (string * pyval) :=
  match d with
  | [] => [(key, v)]
  | (k, x) :: d' =>
      if String.eqb k key then (k, v) :: d' else (k, x) :: dict_set d' key v
  end.

(** [d.pop(key)]: the dict without the key, or [KeyError]. *)
Fixpoint dict_remove (d : list (string * pyval)) (key : string)
  : list (string * pyval) :=
  match d with
  | [] => []
  | (k, x) :: d' =>
      if String.eqb k key then d' else (k, x) :: dict_remove d' key
  end.

Definition dict_pop (d : list (string * pyval)) (key : string)
  : res (list (string * pyval)) :=
  if dict_mem d key then Ret (dict_remove d key) else Raise (KeyError key).

(** ** Strings of digits *)

Definition is_digit (c : ascii) : bool :=
  let n := nat_of_ascii c in (48 <=? n)%nat && (n <=? 57)%nat.

Definition digit_value (c : ascii) : Z := Z.of_nat (nat_of_ascii c) - 48.

Definition is_space (c : ascii) : bool :=
  let n := nat_of_ascii c in
  ((9 <=? n)%nat && (n <=? 13)%nat) || ((28 <=? n)%nat && (n <=? 32)%nat).

(** [s.isdigit()] on a string of ASCII characters: not empty, digits only. *)
Definition str_isdigit (s : string) : bool :=
  match list_ascii_of_string s with
  | [] => false
  | cs => forallb is_digit cs
  end.

(** The digits of an integer literal: single underscores may separate
    digits. [prev] tells whether the character before was a digit. *)
Fixpoint parse_digits (acc : Z) (prev : bool) (cs : list ascii) : option Z :=
  match cs with
  | [] => if prev then Some acc else None
  | c :: cs' =>
      if is_digit c then parse_digits (10 * acc + digit_value c) true cs'
      else if Ascii.eqb c "_" && prev then parse_digits acc false cs'
      else None
  end.

Fixpoint lstrip (cs : list ascii) : list ascii :=
  match cs with
  | c :: cs' => if is_space c then lstrip cs' else cs
  | [] => []
  end.

Definition strip (cs : list ascii) : list ascii :=
  rev (lstrip (rev (lstrip cs))).

(** [int(s)] on a string of ASCII characters. *)
Definition int_of_str (s : string) : res Z :=
  let digits (cs : list ascii) :=
    match cs with
    | c :: _ => if is_digit c then parse_digits 0 false cs else None
    | [] => None
    end in
  let parsed :=
    match strip (list_ascii_of_string s) with
    | c :: cs' =>
        if Ascii.eqb c "-" then Z.opp <$> digits cs'
        else if Ascii.eqb c "+" then digits cs'
        else digits (c :: cs')
    | [] => None
    end in
  match parsed with
  | Some z => Ret z
  | None => Raise ValueError
  end.

(** [int(v)]. *)
Definition py_int (v : pyval) : res Z :=
  match v with
  | PInt z => Ret z
  | PBool b => Ret (Z.b2z b)
  | PFloat q => Ret (Z.quot (Qnum q) (Z.pos (Qden q)))
  | PStr s => int_of_str s
  | _ => Raise TypeError
  end.

(** [a / b] on integers: the quotient, or [ZeroDivisionError]. *)
Definition truediv (a b : Z) : res Q :=
  if b =? 0 then Raise ZeroDivisionError
  else Ret (Qred (Qdiv (inject_Z a) (inject_Z b))).

(** [for x in l: acc = f acc x], stopping at the first exception. *)
Fixpoint foldM {A B : Type} (f : A → B → res A) (acc : A) (l : list B) : res A :=
  match l with
  | [] => Ret acc
  | x :: l' => let* acc := f acc x in foldM f acc l'
  end.

(** [[f x for x in l]], stopping at the first exception. *)
Fixpoint mapM {A B : Type} (f : A → res B) (l : list A) : res (list B) :=
  match l with
  | [] => Ret []
  | x :: l' => let* y := f x in let* ys := mapM f l' in Ret (y :: ys)
  end.

(** [v.keys()]. *)
Definition keys (v : pyval) : res (list string) :=
  match v with
  | PDict d => Ret (map fst d)
  | _ => Raise AttributeError
  end.

(** [v.isdigit()]. *)
Definition isdigit (v : pyval) : res bool :=
  match v with
  | PStr s => Ret (str_isdigit s)
  | _ => Raise AttributeError
  end.

(** ** Ranges and slices *)

(** [range(start, stop, step)]. *)
Definition py_range (start stop step : Z) : res (list Z) :=
  if step =? 0 then Raise ValueError
  else
    let count :=
      if 0 <? step then (stop - start + step - 1) / step
      else (start - stop - step - 1) / (- step) in
    Ret (map (λ k, start + k * step) (seqZ 0 count)).

(** Where a slice bound falls in a list of length [len]. *)
Definition slice_bound (len i : Z) : Z :=
  if i <? 0 then Z.max 0 (i + len) else Z.min i len.

(** [l[i:j]]. *)
Definition py_slice {A : Type} (l : list A) (i j : Z) : list A :=
  let len := Z.of_nat (length l) in
  let lo := slice_bound len i in
  let hi := slice_bound len j in
  take (Z.to_nat (hi - lo)) (drop (Z.to_nat lo) l).

(** ** Filter sets *)

(** The keyword arguments of a call: a dict from argument name to value. *)
Abbreviation kwargs := (gmap string pyval).

Module YoutubeCrawler.

(** [_remove_empty_kwargs]: the loop over [kwargs.items()] copies the
    entries whose value is truthy into a fresh dict. *)
Definition _remove_empty_kwargs (kw : kwargs) : kwargs :=
  map_fold (λ key value good_kwargs,
              if truthy value then <[key := value]> good_kwargs
              else good_kwargs)
           ∅ kw.

(** [_split_list(l, n)]: one slice per index of [range(0, len(l), n)],
    appended in turn. *)
Definition _split_list {A : Type} (l : list A) (n : Z) : res (list (list A)) :=
  let* indices := py_range 0 (Z.of_nat (length l)) n in
  Ret (foldl (λ split_list i, split_list ++ [py_slice l i (i + n)]) [] indices).

(** The chunking step of [video_statistics_by_channel]:
    [self._split_list(ch_video_dict['video_id'], 50)]. *)
Definition video_split_list {A : Type} (video_ids : list A) : res (list (list A)) :=
  _split_list video_ids 50.

(** *** Summing statistics *)

(** The inner loop of [statistics_sum] for one key of one record. *)
Definition statistics_sum_key (vs : pyval) (vsc_sum : list (string * pyval))
    (key : string) : res (list (string * pyval)) :=
  let* value := path vs ["statistics"; key] in
  let* digits := isdigit value in
  if digits then
    if dict_mem vsc_sum key then
      let* old := (let* old := subscript (PDict vsc_sum) key in py_int old) in
      let* value := path vs ["statistics"; key] in
      let* n := py_int value in
      Ret (dict_set vsc_sum key (PInt (old + n)))
    else
      let* value := path vs ["statistics"; key] in
      let* n := py_int value in
      Ret (dict_set vsc_sum key (PInt n))
  else Ret vsc_sum.

(** The renaming loop: [vsc_sum[key + '_sum'] = vsc_sum[key]], then
    [vsc_sum.pop(key)]. *)
Definition statistics_sum_rename (vsc_sum : list (string * pyval)) (key : string)
  : res (list (string * pyval)) :=
  let* value := subscript (PDict vsc_sum) key in
  dict_pop (dict_set vsc_sum (String.append key "_sum") value) key.

(** [statistics_sum(self, *args)].  The loop runs over the name [vsc],
    which the function neither takes nor assigns: it is looked up among the
    globals of the module, and [global_vsc] is what is found there. *)
Definition statistics_sum (global_vsc : option pyval) (args : list pyval)
  : res (list (string * pyval)) :=
  let vsc_sum := [] in
  let* vsc := match global_vsc with
               | Some v => Ret v
               | None => Raise (NameError "vsc")
               end in
  let* records := iterate vsc in
  let* vsc_sum := foldM (λ vsc_sum vs,
                           let* vs_stat := subscript vs "statistics" in
                           let* ks := keys vs_stat in
                           foldM (statistics_sum_key vs) vsc_sum ks)
                        vsc_sum records in
  let old_keys := map fst vsc_sum in
  foldM statistics_sum_rename vsc_sum old_keys.

(** The module binds [logging], [ThreadPool], [Pool], [build], [HttpError],
    [logger] and [YoutubeCrawler], and nothing under the name [vsc]. *)
Definition module_vsc : option pyval := None.

(** *** Channel statistics *)

(** [name] as a local variable that may not have been assigned yet. *)
Definition load_local {A : Type} (name : string) (v : option A) : res A :=
  match v with
  | Some a => Ret a
  | None => Raise (UnboundLocalError name)
  end.

(** [x is True]. *)
Definition is_True (v : pyval) : bool :=
  match v with PBool true => true | _ => false end.

(** One turn of the loop of [channel_countstats].  [view_count] is the
    local variable as the turn before left it; the turn gives the dict it
    appends and the new [view_count]. *)
Definition channel_countstats_body (view_count : option Z) (response : pyval)
  : res (pyval * option Z) :=
  let* ch_id := subscript response "id" in
  let* statistics_response := subscript response "statistics" in
  let* hidden := subscript statistics_response "hiddenSubscriberCount" in
  let* (subscriber_count, sub_view_ratio) :=
    (if is_True hidden then Ret (PNone, PNone)
     else
       let* subscriber_count :=
         (let* v := subscript statistics_response "subscriberCount" in
          py_int v) in
       let* sub_view_ratio :=
         match (let* view_count := load_local "view_count" view_count in
                truediv view_count subscriber_count) with
         | Ret q => Ret (PFloat q)
         | Raise ZeroDivisionError => Ret PNone
         | Raise e => Raise e
         | OutOfFuel => OutOfFuel
         end in
       Ret (PInt subscriber_count, sub_view_ratio)) in
  let* view_count := (let* v := subscript statistics_response "viewCount" in py_int v) in
  let* video_count := (let* v := subscript statistics_response "videoCount" in py_int v) in
  Ret (PDict [("ch_id", ch_id); ("subscriberCount", subscriber_count);
              ("viewCount", PInt view_count); ("videoCount", PInt video_count);
              ("sub_view_ratio", sub_view_ratio)],
       Some view_count).

(** The loop over [responses['items']], from an unassigned [view_count]. *)
Definition channel_countstats_items (items : list pyval) : res (list pyval) :=
  let* (result_list, _) :=
    foldM (λ '(result_list, view_count) response,
             let* (entry, view_count) :=
               channel_countstats_body view_count response in
             Ret (result_list ++ [entry], view_count))
          ([], None) items in
  Ret result_list.

(** *** Video descriptions *)

(** The dict that the comprehension of [_video_desc] makes of one item. *)
Definition video_dict_of (item : pyval) : res pyval :=
  let* channelId := path item ["snippet"; "channelId"] in
  let* videoId := path item ["snippet"; "resourceId"; "videoId"] in
  let* title := path item ["snippet"; "title"] in
  let* description := path item ["snippet"; "description"] in
  let* publishedAt := path item ["snippet"; "publishedAt"] in
  let* thumbnails := path item ["snippet"; "thumbnails"] in
  Ret (PDict [("channelId", channelId); ("videoId", videoId); ("title", title);
              ("description", description); ("publishedAt", publishedAt);
              ("thumbnails", thumbnails)]).

(** The comprehension of [_video_desc] over [response['items']]. *)
Definition video_dicts (response : pyval) : res (list pyval) :=
  let* items := subscript response "items" in
  let* items := iterate items in
  mapM video_dict_of items.

(** The keyword arguments of the call of [_video_desc]. *)
Definition playlistitems_kwargs (upload_id next_page_token : pyval) : kwargs :=
  {[ "playlistId" := upload_id; "part" := PStr "snippet";
     "maxResults" := PInt 50; "pageToken" := next_page_token ]}.

(** The keyword arguments of the call of [channel_countstats]. *)
Definition countstats_kwargs (id : pyval) : kwargs :=
  {[ "part" := PStr "statistics"; "id" := id ]}.

(** *** Channel descriptions *)




(** *** Video statistics *)

(** The dict that the loop of [video_statistics] appends for one item. *)
Definition video_statistics_of (item : pyval) : res pyval :=
  let* id_video := subscript item "id" in
  let* video_statistics := subscript item "statistics" in
  Ret (PDict [("videoId", id_video); ("statistics", video_statistics)]).

(** [sep.join(x)]: every element has to be a string. *)
Definition str_join (sep : string) (x : list pyval) : res string :=
  let* strs := mapM (λ v, match v with
                          | PStr s => Ret s
                          | _ => Raise TypeError
                          end) x in
  Ret (String.concat sep strs).

(** The keyword arguments of the call of [_id_to_stats]. *)
Definition id_to_stats_kwargs (id_join : string) : kwargs :=
  {[ "id" := PStr id_join; "part" := PStr "statistics" ]}.

(** *** Videos by channel *)

(** The dict that the comprehension of [channel_video_desc] makes of one
    item of the channels response. *)
Definition ch_uploads_of (item : pyval) : res pyval :=
  let* ch_id := subscript item "id" in
  let* uploads_id := path item ["contentDetails"; "relatedPlaylists"; "uploads"] in
  Ret (PDict [("ch_id", ch_id); ("uploads_id", uploads_id)]).

(** The keyword arguments of the first call of [channel_video_desc]. *)
Definition content_details_kwargs (id : pyval) : kwargs :=
  {[ "part" := PStr "contentDetails"; "id" := id ]}.

(** The first loop of [video_statistics_by_channel] for one result of
    [channel_video_desc]. *)
Definition ch_video_dict_of (response : pyval) : res pyval :=
  let* ch_id := subscript response "ch_id" in
  let* video_info_list := subscript response "video_info_list" in
  let* items := iterate video_info_list in
  let* video_ids := mapM (λ item, subscript item "videoId") items in
  Ret (PDict [("ch_id", ch_id); ("video_id", PList video_ids)]).

(** [channel_video_desc] takes [id] and no other keyword argument. *)
Definition channel_video_desc_args (kw : kwargs) : res pyval :=
  if bool_decide (dom kw ⊆ ({[ "id" ]} : gset string))
  then Ret (default PNone (kw !! "id"))
  else Raise TypeError.

(** *** The key pool and the client handle *)

(** A list iterator, as [iter(api_key_list)] makes it: the list and the
    position of the next element.  Once it has raised [StopIteration] it
    drops the list and raises for ever. *)
Record list_iterator : Type :=
  { it_seq : option (list string); it_index : nat }.

Definition iter (l : list string) : list_iterator :=
  {| it_seq := Some l; it_index := 0 |}.

Definition next (it : list_iterator) : res string * list_iterator :=
  match it_seq it with
  | Some l =>
      match l !! it_index it with
      | Some key => (Ret key, {| it_seq := Some l; it_index := S (it_index it) |})
      | None => (Raise StopIteration, {| it_seq := None; it_index := it_index it |})
      end
  | None => (Raise StopIteration, it)
  end.

(** The session that [build("youtube", "v3", developerKey=key)] returns. *)
Record session : Type := build { developerKey : string }.

(** The fields of a [YoutubeCrawler] object. *)
Record crawler : Type :=
  { api_key_iter : list_iterator;
    client : session;
    processes : Z;
    thread : bool }.

Definition set_api_key_iter (c : crawler) (it : list_iterator) : crawler :=
  {| api_key_iter := it; client := client c;
     processes := processes c; thread := thread c |}.

Definition set_client (c : crawler) (s : session) : crawler :=
  {| api_key_iter := api_key_iter c; client := s;
     processes := processes c; thread := thread c |}.

(** [__init__(api_key_list, processes, thread)]. *)
Definition __init__ (api_key_list : list string) (processes : Z) (thread : bool)
  : res crawler :=
  let '(key, it) := next (iter api_key_list) in
  let* key := key in
  Ret {| api_key_iter := it; client := build key;
         processes := processes; thread := thread |}.

(** *** The API *)

(** The four list endpoints of the client. *)
Inductive endpoint : Type := channels | search | videos | playlistItems.

(** What [.list(...).execute()] gives: a response, or an [HttpError] whose
    [resp.status] is the status. *)
Inductive reply : Type :=
| Response (r : pyval)
| Failure (status : Z).

(** One call as the API sees it. *)
Record request : Type :=
  { req_client : session; req_endpoint : endpoint; req_kwargs : kwargs }.

Section Orchestrator.

(** The API: its state, and how it answers a request. *)
Context {World : Type}.
Variable execute : request → World → reply * World.

(** The crawler together with the world it talks to. *)
Record state : Type := { self : crawler; world : World }.

Definition set_world (st : state) (w : World) : state :=
  {| self := self st; world := w |}.

Definition set_self (st : state) (c : crawler) : state :=
  {| self := c; world := world st |}.

Definition M (A : Type) : Type := state → res A * state.

Definition M_bind {A B : Type} (m : M A) (k : A → M B) : M B :=
  λ st, match m st with
        | (Ret a, st') => k a st'
        | (Raise e, st') => (Raise e, st')
        | (OutOfFuel, st') => (OutOfFuel, st')
        end.

Definition ret {A : Type} (a : A) : M A := λ st, (Ret a, st).

(** Sequencing of code that also changes the crawler and the world. *)
Declare Scope crawler_scope.
Delimit Scope crawler_scope with crawler.

Notation "'let*' x ':=' m 'in' k" := (M_bind m (λ x, k))
  (at level 10, x name, m at level 100, k at level 200,
   format "'[v' 'let*'  x  ':='  m  'in' '/' k ']'") : crawler_scope.

Local Open Scope crawler_scope.

Definition lift {A : Type} (r : res A) : M A := λ st, (r, st).

(** [try: body except HttpError as e: handler]. *)
Definition try_except_HttpError {A : Type} (body : M A) (handler : Z → M A)
  : M A :=
  λ st, match body st with
        | (Raise (HttpError status), st') => handler status st'
        | r => r
        end.

(** [self.client.<endpoint>().list(...).execute()]. *)
Definition list_execute (ep : endpoint) (kw : kwargs) : M pyval :=
  λ st,
    let req := {| req_client := client (self st); req_endpoint := ep;
                  req_kwargs := kw |} in
    let '(r, w) := execute req (world st) in
    match r with
    | Response v => (Ret v, set_world st w)
    | Failure status => (Raise (HttpError status), set_world st w)
    end.

(** [self.client = build("youtube", "v3", developerKey=next(self.api_key_iter))]:
    the iterator moves even when it has nothing left to give. *)
Definition rotate : M unit :=
  λ st,
    let '(key, it) := next (api_key_iter (self st)) in
    let c := set_api_key_iter (self st) it in
    match key with
    | Ret key => (Ret tt, set_self st (set_client c (build key)))
    | Raise e => (Raise e, set_self st c)
    | OutOfFuel => (OutOfFuel, set_self st c)
    end.

(** The body of the [try] in [_response]: four tests in a row, each of
    which assigns [response] when the resource is its own. *)
Definition _response_try (resource : string) (kw : kwargs) (response : pyval)
  : M pyval :=
  let* response := (if String.eqb resource "channels"
                    then list_execute channels kw else ret response) in
  let* response := (if String.eqb resource "search"
                    then list_execute search kw else ret response) in
  let* response := (if String.eqb resource "videos"
                    then list_execute videos kw else ret response) in
  let* response := (if String.eqb resource "playlistitems"
                    then list_execute playlistItems kw else ret response) in
  ret response.

(** One turn of [while not response:].  An [HttpError] leaves [response]
    as it was: at most one of the four tests holds, so nothing has been
    assigned when the call raises. *)
Definition _response_body (resource : string) (kw : kwargs) (response : pyval)
  : M pyval :=
  try_except_HttpError
    (_response_try resource kw response)
    (λ status,
       let* _ := (if status =? 403 then rotate else ret tt) in
       ret response).

Fixpoint _response_loop (fuel : nat) (resource : string) (kw : kwargs)
    (response : pyval) : M pyval :=
  if truthy response then ret response
  else match fuel with
       | O => lift OutOfFuel
       | S fuel' =>
           let* response := _response_body resource kw response in
           _response_loop fuel' resource kw response
       end.

(** [_response(resource, ...)] with its keyword arguments. *)
Definition _response (fuel : nat) (resource : string) (kw : kwargs) : M pyval :=
  let kw := _remove_empty_kwargs kw in
  _response_loop fuel resource kw PNone.

(** [channel_countstats(id)]. *)
Definition channel_countstats (fuel : nat) (id : pyval) : M (list pyval) :=
  let* responses := _response fuel "channels" (countstats_kwargs id) in
  lift (let* items := subscript responses "items" in
        let* items := iterate items in
        channel_countstats_items items)%res.

(** The [while True:] of [_video_desc]; [rfuel] is the fuel of each
    [_response]. *)
Fixpoint _video_desc_loop (rfuel fuel : nat) (ch_id upload_id : pyval)
    (next_page_token : pyval) (video_dict_list : list pyval) : M pyval :=
  match fuel with
  | O => lift OutOfFuel
  | S fuel' =>
      let* response := _response rfuel "playlistitems"
                         (playlistitems_kwargs upload_id next_page_token) in
      let* video_dict := lift (video_dicts response) in
      let video_dict_list := video_dict_list ++ video_dict in
      let* ks := lift (keys response) in
      if bool_decide ("nextPageToken" ∈ ks) then
        let* next_page_token := lift (subscript response "nextPageToken") in
        _video_desc_loop rfuel fuel' ch_id upload_id next_page_token
                         video_dict_list
      else
        ret (PDict [("ch_id", ch_id); ("upload_id", upload_id);
                     ("video_info_list", PList video_dict_list)])
  end.

(** [_video_desc(ch_id, upload_id)]. *)
Definition _video_desc (fuel : nat) (ch_id upload_id : pyval) : M pyval :=
  let next_page_token := PStr "" in
  let video_dict_list := [] in
  _video_desc_loop fuel fuel ch_id upload_id next_page_token video_dict_list.

(** [[f x for x in l]] for an [f] that talks to the API. *)
Fixpoint mapM_M {A B : Type} (f : A → M B) (l : list A) : M (list B) :=
  match l with
  | [] => ret []
  | x :: l' =>
      let* y := f x in
      let* ys := mapM_M f l' in
      ret (y :: ys)
  end.


(** [video_statistics] with its keyword arguments. *)
Definition video_statistics (fuel : nat) (kw : kwargs) : M (list pyval) :=
  let* responses := _response fuel "videos" kw in
  lift (let* items := subscript responses "items" in
        let* items := iterate items in
        mapM video_statistics_of items)%res.

(** [_id_to_stats(x)]. *)
Definition _id_to_stats (fuel : nat) (x : list pyval) : M (list pyval) :=
  let* id_join := lift (str_join "," x) in
  video_statistics fuel (id_to_stats_kwargs id_join).

(** How a task behaves when a worker process runs it on its copy of the
    crawler; the library decides, so it is left open. *)
Variable in_process : ∀ A : Type, M A → M A.

(** [pool = Pool(self.processes)], then [pool = ThreadPool(self.processes)]
    if [self.thread]: both refuse a number of workers below one.  The
    result tells whether the pool is a thread pool. *)
Definition make_pool : M bool :=
  λ st, if processes (self st) <? 1 then (Raise ValueError, st)
        else (Ret (thread (self st)), st).

(** [pool.apply_async(task).get()]: the task is run and waited for before
    anything else happens; a worker thread runs it on the crawler itself. *)
Definition apply_async_get {A : Type} (thread_pool : bool) (task : M A) : M A :=
  if thread_pool then task else in_process A task.

(** One turn of the loop of [channel_video_desc]. *)
Definition video_desc_task (fuel : nat) (pool : bool) (ch_uploads : pyval)
  : M pyval :=
  let* upload_id := lift (subscript ch_uploads "uploads_id") in
  let* ch_id := lift (subscript ch_uploads "ch_id") in
  apply_async_get pool (_video_desc fuel ch_id upload_id).

(** [channel_video_desc(id)]. *)
Definition channel_video_desc (fuel : nat) (id : pyval) : M (list pyval) :=
  let* responses := _response fuel "channels" (content_details_kwargs id) in
  let* ch_uploads_id := lift (let* items := subscript responses "items" in
                              let* items := iterate items in
                              mapM ch_uploads_of items)%res in
  let* pool := make_pool in
  mapM_M (video_desc_task fuel pool) ch_uploads_id.

(** One element of the comprehension of [video_statistics_by_channel]. *)
Definition id_to_stats_task (fuel : nat) (pool : bool) (split : list pyval)
  : M (list pyval) :=
  apply_async_get pool (_id_to_stats fuel split).

(** The second loop of [video_statistics_by_channel] for one channel. *)
Definition ch_videos_stats_of (fuel : nat) (pool : bool) (ch_video_dict : pyval)
  : M pyval :=
  let* ch_id := lift (subscript ch_video_dict "ch_id") in
  let* video_id := lift (let* ids := subscript ch_video_dict "video_id" in
                         iterate ids)%res in
  let* split_list := lift (video_split_list video_id) in
  let* results := mapM_M (id_to_stats_task fuel pool) split_list in
  ret (PDict [("ch_id", ch_id); ("video_stats", PList (map PList results))]).

(** [video_statistics_by_channel] with its keyword arguments. *)
Definition video_statistics_by_channel (fuel : nat) (kw : kwargs) : M (list pyval) :=
  let* id := lift (channel_video_desc_args kw) in
  let* responses := channel_video_desc fuel id in
  let* ch_video_dict_array := lift (mapM ch_video_dict_of responses) in
  let* pool := make_pool in
  mapM_M (ch_videos_stats_of fuel pool) ch_video_dict_array.

End Orchestrator.

Arguments state : clear implicits.

(** *** A scripted API *)

(** An API that answers the replies of a script in turn and records the
    requests it gets; once the script is used up it fails with status 500. *)
Record script : Type := { pending : list reply; calls : list request }.

Definition scripted (req : request) (w : script) : reply * script :=
  match pending w with
  | r :: rest => (r, {| pending := rest; calls := calls w ++ [req] |})
  | [] => (Failure 500, {| pending := []; calls := calls w ++ [req] |})
  end.

(** An API that gives the same reply to every request. *)
Definition always {World : Type} (r : reply) : request → World → reply * World :=
  λ _ w, (r, w).

(** A crawler on [api_key_list] in front of an API that will answer [replies]. *)
Definition start (api_key_list : list string) (replies : list reply)
  : res (state script) :=
  let* c := __init__ api_key_list 10 false in
  Ret {| self := c; world := {| pending := replies; calls := [] |} |}.

(** *** Sample responses *)

(** A playlist item for a video, and the dict that [_video_desc] makes of it. *)
Definition sample_item (video_id : string) : pyval :=
  PDict [("snippet",
          PDict [("channelId", PStr "UC1");
                 ("resourceId", PDict [("videoId", PStr video_id)]);
                 ("title", PStr "title"); ("description", PStr "text");
                 ("publishedAt", PStr "2019-01-01T00:00:00Z");
                 ("thumbnails", PDict [])])].

Definition sample_video (video_id : string) : pyval :=
  PDict [("channelId", PStr "UC1"); ("videoId", PStr video_id);
         ("title", PStr "title"); ("description", PStr "text");
         ("publishedAt", PStr "2019-01-01T00:00:00Z");
         ("thumbnails", PDict [])].

(** A page of playlist items, with or without a next-page token. *)
Definition sample_page (token : option string) (video_ids : list string) : pyval :=
  PDict (("items", PList (map sample_item video_ids))
         :: match token with
            | Some t => [("nextPageToken", PStr t)]
            | None => []
            end).

(** An item of a channels response with its statistics. *)
Definition sample_channel (id : string) (hidden : bool)
    (subscribers views videos : string) : pyval :=
  PDict [("id", PStr id);
         ("statistics",
          PDict [("viewCount", PStr views);
                 ("subscriberCount", PStr subscribers);
                 ("hiddenSubscriberCount", PBool hidden);
                 ("videoCount", PStr videos)])].


(** An item of a videos response with its statistics. *)
Definition sample_video_item (id views : string) : pyval :=
  PDict [("id", PStr id); ("statistics", PDict [("viewCount", PStr views)])].

(** An item of a channels response with its content details. *)
Definition sample_channel_uploads (id uploads : string) : pyval :=
  PDict [("id", PStr id);
         ("contentDetails",
          PDict [("relatedPlaylists", PDict [("uploads", PStr uploads)])])].

(** A crawler on two keys, using the first. *)
Definition sample_crawler : crawler :=
  {| api_key_iter := {| it_seq := Some ["k1"; "k2"]; it_index := 1 |};
     client := build "k1"; processes := 10; thread := false |}.

(** A crawler on two keys that uses a pool of threads. *)
Definition sample_thread_crawler : crawler :=
  {| api_key_iter := {| it_seq := Some ["k1"; "k2"]; it_index := 1 |};
     client := build "k1"; processes := 10; thread := true |}.

(** *** Resources and rotations in closed form *)

(** The endpoint that a resource name selects in [_response], if any. *)
Definition endpoint_of (resource : string) : option endpoint :=
  if String.eqb resource "channels" then Some channels
  else if String.eqb resource "search" then Some search
  else if String.eqb resource "videos" then Some videos
  else if String.eqb resource "playlistitems" then Some playlistItems
  else None.

(** A reply after which [_response] goes round its loop again. *)
Definition retried (r : reply) : bool :=
  match r with
  | Failure _ => true
  | Response v => negb (truthy v)
  end.

(** A reply that makes [_response] take the next key: status 403. *)
Definition forbidden (r : reply) : bool :=
  match r with
  | Failure status => status =? 403
  | Response _ => false
  end.

(** The number of replies with status 403. *)
Definition rotations (replies : list reply) : nat :=
  length (List.filter forbidden replies).

(** The crawler after [j] rotations: its iterator is [j] places further
    and its session is built with the last key passed, if the list has
    that many keys left. *)
Definition rotated (c : crawler) (j : nat) : option crawler :=
  match j with
  | O => Some c
  | S j' =>
      l ← it_seq (api_key_iter c);
      key ← l !! (it_index (api_key_iter c) + j')%nat;
      Some (set_client
              (set_api_key_iter c {| it_seq := Some l;
                                     it_index := it_index (api_key_iter c) + j |})
              (build key))
  end.

(** How a crawler can differ from what it was before a call: the worker
    settings are the same, the iterator is at the same place or further on
    in the same list, or exhausted, and the session is the same or built
    with a key of the list. *)
Definition keeps_pool (c c' : crawler) : Prop :=
  processes c' = processes c
  ∧ thread c' = thread c
  ∧ (it_index (api_key_iter c) ≤ it_index (api_key_iter c'))%nat
  ∧ (it_seq (api_key_iter c') = it_seq (api_key_iter c)
     ∨ it_seq (api_key_iter c') = None)
  ∧ (client c' = client c
     ∨ ∃ l, it_seq (api_key_iter c) = Some l ∧ developerKey (client c') ∈ l).

(** Whether a response names a next page, and the token it gives. *)
Definition has_next_page (response : pyval) : bool :=
  match keys response with
  | Ret ks => bool_decide ("nextPageToken" ∈ ks)
  | _ => false
  end.

Definition page_token (response : pyval) : pyval :=
  match subscript response "nextPageToken" with
  | Ret token => token
  | _ => PNone
  end.

(** The request that [_video_desc] makes with a given cursor. *)
Definition page_request (c : crawler) (upload_id token : pyval) : request :=
  {| req_client := client c; req_endpoint := playlistItems;
     req_kwargs := _remove_empty_kwargs (playlistitems_kwargs upload_id token) |}.

(** What the API holds for one channel: its id, the id of its uploads
    playlist, the pages of that playlist that name a next page, the last
    page, and the video dicts that [_video_desc] makes of each page. *)
Record uploads : Type :=
  { up_ch_id : pyval;
    up_upload_id : pyval;
    up_pages : list pyval;
    up_last : pyval;
    up_videos : list (list pyval) }.

(** The pages are as [_video_desc] expects them, and few enough for the fuel. *)
Definition uploads_ok (fuel : nat) (u : uploads) : Prop :=
  Forall (λ response, has_next_page response = true) (up_pages u)
  ∧ has_next_page (up_last u) = false
  ∧ mapM video_dicts (up_pages u ++ [up_last u]) = Ret (up_videos u)
  ∧ (length (up_pages u) < fuel)%nat.

(** The replies of the API for the pages of a channel, the requests that
    fetch them, and what [_video_desc] returns for the channel. *)
Definition uploads_replies (u : uploads) : list reply :=
  map Response (up_pages u ++ [up_last u]).

Definition uploads_requests (c : crawler) (u : uploads) : list request :=
  map (page_request c (up_upload_id u)) (PStr "" :: map page_token (up_pages u)).

Definition uploads_result (u : uploads) : pyval :=
  PDict [("ch_id", up_ch_id u); ("upload_id", up_upload_id u);
         ("video_info_list", PList (concat (up_videos u)))].

(** The dict that [channel_video_desc] keeps of a channel. *)
Definition uploads_entry (u : uploads) : pyval :=
  PDict [("ch_id", up_ch_id u); ("uploads_id", up_upload_id u)].

(** The request that [_id_to_stats] makes for a chunk of video ids. *)
Definition stats_request (c : crawler) (chunk : list string) : request :=
  {| req_client := client c; req_endpoint := videos;
     req_kwargs := _remove_empty_kwargs
                     (id_to_stats_kwargs (String.concat "," chunk)) |}.

(** A videos response: its items and whatever else it holds. *)
Definition videos_response (page : list pyval * list (string * pyval)) : pyval :=
  PDict (("items", PList page.1) :: page.2).

(** A channel with two pages of uploads, one video on each. *)
Definition sample_uploads (ch_id upload_id : string) : uploads :=
  {| up_ch_id := PStr ch_id;
     up_upload_id := PStr upload_id;
     up_pages := [sample_page (Some "T1") ["v1"]];
     up_last := sample_page None ["v2"];
     up_videos := [[sample_video "v1"]; [sample_video "v2"]] |}.

Section Turn.

Context {World : Type} (execute : request → World → reply * World).

(** What one turn of the loop does, read off the reply of the API. *)
Definition turn (ep : endpoint) (kw : kwargs) (response : pyval)
    (st : state World) : res pyval * state World :=
  let req := {| req_client := client (self st); req_endpoint := ep;
                req_kwargs := kw |} in
  match execute req (world st) with
  | (Response v, w) => (Ret v, set_world st w)
  | (Failure status, w) =>
      if status =? 403 then
        match next (api_key_iter (self st)) with
        | (Ret key, it) =>
            (Ret response,
             set_self (set_world st w)
               (set_client (set_api_key_iter (self st) it) (build key)))
        | (Raise e, it) =>
            (Raise e, set_self (set_world st w) (set_api_key_iter (self st) it))
        | (OutOfFuel, it) =>
            (OutOfFuel, set_self (set_world st w) (set_api_key_iter (self st) it))
        end
      else (Ret response, set_world st w)
  end.

End Turn.

(** *** Chunks in closed form *)

(** The number of chunks of size [n] that [len] elements fill. *)
Definition chunk_count (n len : nat) : nat :=
  Z.to_nat ((Z.of_nat len + Z.of_nat n - 1) / Z.of_nat n).

(** The [k]-th chunk is the [n] elements from position [k * n] on. *)
Definition chunks {A : Type} (n : nat) (l : list A) : list (list A) :=
  map (λ k : nat, take n (drop (k * n) l)) (seq 0 (chunk_count n (length l))).

(** *** Videos of a channel *)

(** What the API holds for the videos of one channel: its uploads, the
    ids of its videos, and the pages that answer the requests for the
    statistics of each chunk of ids, with the entries that
    [video_statistics] makes of each page. *)
Record channel_videos : Type :=
  { cv_uploads : uploads;
    cv_ids : list string;
    cv_pages : list (list pyval * list (string * pyval));
    cv_stats : list (list pyval) }.

Definition channel_videos_ok (fuel : nat) (cv : channel_videos) : Prop :=
  uploads_ok fuel (cv_uploads cv)
  ∧ mapM (λ item, subscript item "videoId") (concat (up_videos (cv_uploads cv)))
    = Ret (map PStr (cv_ids cv))
  ∧ length (cv_pages cv) = chunk_count 50 (length (cv_ids cv))
  ∧ Forall2 (λ page entries, mapM video_statistics_of page.1 = Ret entries)
            (cv_pages cv) (cv_stats cv).

Definition stats_replies (cv : channel_videos) : list reply :=
  map (λ page, Response (videos_response page)) (cv_pages cv).

Definition stats_requests (c : crawler) (cv : channel_videos) : list request :=
  map (stats_request c) (chunks 50 (cv_ids cv)).

(** The dict that [video_statistics_by_channel] keeps of a channel, and
    the one it returns for it. *)
Definition ch_video_dict (cv : channel_videos) : pyval :=
  PDict [("ch_id", up_ch_id (cv_uploads cv));
         ("video_id", PList (map PStr (cv_ids cv)))].

Definition stats_result (cv : channel_videos) : pyval :=
  PDict [("ch_id", up_ch_id (cv_uploads cv));
         ("video_stats", PList (map PList (cv_stats cv)))].

(** The same channel with the page that answers for its statistics. *)
Definition sample_channel_videos (ch_id upload_id : string) : channel_videos :=
  {| cv_uploads := sample_uploads ch_id upload_id;
     cv_ids := ["v1"; "v2"];
     cv_pages := [([sample_video_item "v1" "10"; sample_video_item "v2" "20"], [])];
     cv_stats := [[PDict [("videoId", PStr "v1");
                          ("statistics", PDict [("viewCount", PStr "10")])];
                   PDict [("videoId", PStr "v2");
                          ("statistics", PDict [("viewCount", PStr "20")])]]] |}.

End YoutubeCrawler.

Import YoutubeCrawler.

(** * Properties *)

(** ** [_split_list] *)

Section SplitList.

Context {A : Type}.
Implicit Types (l : list A) (n : Z).

Lemma foldl_snoc_map {B : Type} (f : B → list A) (indices : list B) acc :
  foldl (λ split_list i, split_list ++ [f i]) acc indices
  = acc ++ map f indices.
Proof.
  revert acc. induction indices as [|i indices IH]; intros acc; simpl.
  - by rewrite app_nil_r.
  - rewrite IH, <- app_assoc. done.
Qed.

(** A slice that starts inside or after the list and has a length that
    is not negative is a [take] of a [drop]. *)
Lemma py_slice_take_drop l (i n : Z) :
  0 ≤ i → 0 ≤ n →
  py_slice l i (i + n) = take (Z.to_nat n) (drop (Z.to_nat i) l).
Proof.
  intros Hi Hn. unfold py_slice, slice_bound.
  destruct (Z.ltb_spec i 0); [lia|].
  destruct (Z.ltb_spec (i + n) 0); [lia|].
  destruct (Z_lt_le_dec i (Z.of_nat (length l))) as [Hlt|Hge].
  - rewrite (Z.min_l i) by lia.
    destruct (Z_le_gt_dec (i + n) (Z.of_nat (length l))).
    + rewrite Z.min_l by lia. f_equal. lia.
    + rewrite Z.min_r by lia.
      rewrite !take_ge; [done | |]; rewrite length_drop; lia.
  - rewrite !Z.min_r by lia. rewrite Z.sub_diag. simpl.
    rewrite (drop_ge l (Z.to_nat i)) by lia. by rewrite take_nil.
Qed.

Lemma _split_list_chunks l n :
  0 < n → _split_list l n = Ret (chunks (Z.to_nat n) l).
Proof.
  intros Hn. unfold _split_list, py_range.
  destruct (Z.eqb_spec n 0); [lia|].
  destruct (Z.ltb_spec 0 n); [|lia]. simpl.
  rewrite foldl_snoc_map. simpl. f_equal.
  unfold chunks, chunk_count, seqZ.
  rewrite Z2Nat.id, Z.sub_0_r by lia.
  change (list_fmap nat Z ?f ?l) with (map f l).
  rewrite !map_map. apply map_ext. intros k.
  rewrite py_slice_take_drop by lia.
  do 2 f_equal. lia.
Qed.

Lemma chunk_count_bounds (n len : nat) :
  (0 < n)%nat →
  (len ≤ chunk_count n len * n)%nat ∧ (chunk_count n len * n < len + n)%nat.
Proof.
  intros Hn. unfold chunk_count.
  set (a := Z.of_nat len + Z.of_nat n - 1).
  assert (0 ≤ a / Z.of_nat n) by (apply Z.div_pos; lia).
  pose proof (Z.div_mod a (Z.of_nat n) ltac:(lia)) as Hdm.
  pose proof (Z.mod_pos_bound a (Z.of_nat n) ltac:(lia)) as Hmod.
  split; nia.
Qed.

Lemma chunks_lookup (n : nat) l (k : nat) :
  chunks n l !! k =
    if decide (k < chunk_count n (length l))%nat
    then Some (take n (drop (k * n) l)) else None.
Proof.
  unfold chunks. rewrite list_lookup_fmap.
  case_decide.
  - by rewrite lookup_seq_lt.
  - rewrite lookup_seq_ge; [done | lia].
Qed.

Lemma length_chunks (n : nat) l :
  length (chunks n l) = chunk_count n (length l).
Proof. unfold chunks. by rewrite length_map, length_seq. Qed.

Lemma concat_chunks_take (n : nat) l (c : nat) :
  concat (map (λ k : nat, take n (drop (k * n) l)) (seq 0 c)) = take (c * n) l.
Proof.
  induction c as [|c IH]; [done|].
  rewrite seq_S, map_app, concat_app, IH. simpl.
  rewrite app_nil_r, take_take_drop. f_equal. lia.
Qed.

Lemma concat_chunks (n : nat) l : (0 < n)%nat → concat (chunks n l) = l.
Proof.
  intros Hn. unfold chunks. rewrite concat_chunks_take.
  apply take_ge. pose proof (chunk_count_bounds n (length l) Hn). lia.
Qed.

(** Every chunk but the last is full, and the last is not empty. *)
Lemma chunks_length_lookup (n : nat) l (k : nat) (chunk : list A) :
  (0 < n)%nat →
  chunks n l !! k = Some chunk →
  (if decide (S k < length (chunks n l))%nat
   then length chunk = n
   else (1 ≤ length chunk ≤ n)%nat).
Proof.
  intros Hn. rewrite chunks_lookup, length_chunks.
  pose proof (chunk_count_bounds n (length l) Hn) as [Hlo Hhi].
  case_decide as Hk; [|done]. intros [= <-].
  rewrite length_take, length_drop.
  case_decide; nia.
Qed.

End SplitList.

(** C8: a list of more than 50 video ids is split by
    [video_statistics_by_channel] (through [_split_list] with size 50) into
    ceil(n/50) chunks; every chunk but the last has exactly 50 elements and
    the last has between 1 and 50. *)
Theorem video_split_list_chunks_of_50 {A : Type} (video_ids : list A) :
  (50 < length video_ids)%nat →
  ∃ split_list,
    video_split_list video_ids = Ret split_list
    ∧ Z.of_nat (length split_list) = (Z.of_nat (length video_ids) + 49) / 50
    ∧ (50 * (length split_list - 1) < length video_ids
       ≤ 50 * length split_list)%nat
    ∧ ∀ (k : nat) (chunk : list A),
        split_list !! k = Some chunk →
        if decide (S k < length split_list)%nat
        then length chunk = 50%nat
        else (1 ≤ length chunk ≤ 50)%nat.
Proof.
  intros Hlen. exists (chunks 50 video_ids).
  split; [by apply _split_list_chunks|].
  pose proof (chunk_count_bounds 50 (length video_ids) ltac:(lia)) as [Hlo Hhi].
  rewrite length_chunks. repeat split.
  - unfold chunk_count. rewrite Z2Nat.id; [f_equal; lia|].
    apply Z.div_pos; lia.
  - lia.
  - lia.
  - intros k chunk Hk.
    pose proof (chunks_length_lookup 50 video_ids k chunk ltac:(lia) Hk) as H.
    by rewrite length_chunks in H.
Qed.

Lemma video_split_list_chunks_of_50_witness :
  ∃ split_list,
    video_split_list (seq 0 101) = Ret split_list
    ∧ Z.of_nat (length split_list) = (Z.of_nat (length (seq 0 101)) + 49) / 50
    ∧ (50 * (length split_list - 1) < length (seq 0 101)
       ≤ 50 * length split_list)%nat
    ∧ ∀ (k : nat) (chunk : list nat),
        split_list !! k = Some chunk →
        if decide (S k < length split_list)%nat
        then length chunk = 50%nat
        else (1 ≤ length chunk ≤ 50)%nat.
Proof.
  apply (video_split_list_chunks_of_50 (seq 0 101)).
  rewrite length_seq. lia.
Defined.

(** C9: for a positive chunk size, the chunks of [_split_list(l, n)]
    concatenated in order give back [l], and no chunk is empty. *)
Theorem _split_list_concat {A : Type} (l : list A) (n : Z) :
  0 < n →
  ∃ split_list,
    _split_list l n = Ret split_list
    ∧ concat split_list = l
    ∧ Forall (λ chunk, chunk ≠ []) split_list.
Proof.
  intros Hn. exists (chunks (Z.to_nat n) l).
  split; [by apply _split_list_chunks|].
  split; [apply concat_chunks; lia|].
  apply Forall_lookup. intros k chunk Hk.
  pose proof (chunks_length_lookup (Z.to_nat n) l k chunk ltac:(lia) Hk) as H.
  intros ->. simpl in H. case_decide; lia.
Qed.

Lemma _split_list_concat_witness :
  ∃ split_list,
    _split_list [1; 2; 3; 4; 5; 6; 7] 3 = Ret split_list
    ∧ concat split_list = [1; 2; 3; 4; 5; 6; 7]
    ∧ Forall (λ chunk, chunk ≠ []) split_list.
Proof. apply (_split_list_concat [1; 2; 3; 4; 5; 6; 7] 3). lia. Defined.

(** ** [_remove_empty_kwargs] *)

Lemma _remove_empty_kwargs_lookup (kw : kwargs) (key : string) :
  _remove_empty_kwargs kw !! key
  = match kw !! key with
    | Some value => if truthy value then Some value else None
    | None => None
    end.
Proof.
  unfold _remove_empty_kwargs. revert key.
  apply (map_fold_weak_ind
           (λ (good_kwargs kw : gmap string pyval),
              ∀ key, good_kwargs !! key
                     = match kw !! key with
                       | Some value => if truthy value then Some value else None
                       | None => None
                       end)).
  - intros key. by rewrite !lookup_empty.
  - intros i x m r Hi IH key.
    destruct (decide (i = key)) as [->|Hne].
    + rewrite lookup_insert_eq.
      destruct (truthy x); [by rewrite lookup_insert_eq|].
      by rewrite IH, Hi.
    + rewrite (lookup_insert_ne m) by done.
      destruct (truthy x); [rewrite lookup_insert_ne by done|]; apply IH.
Qed.

(** ** The retry loop of [_response] *)

Section ResponseLoop.

Context {World : Type} (execute : request → World → reply * World).
Implicit Types (st : state World) (kw : kwargs) (response : pyval).

Lemma endpoint_of_cases (resource : string) :
  match endpoint_of resource with
  | Some channels => resource = "channels"
  | Some search => resource = "search"
  | Some videos => resource = "videos"
  | Some playlistItems => resource = "playlistitems"
  | None => String.eqb resource "channels" = false
            ∧ String.eqb resource "search" = false
            ∧ String.eqb resource "videos" = false
            ∧ String.eqb resource "playlistitems" = false
  end.
Proof.
  unfold endpoint_of.
  destruct (String.eqb_spec resource "channels"); [done|].
  destruct (String.eqb_spec resource "search"); [done|].
  destruct (String.eqb_spec resource "videos"); [done|].
  destruct (String.eqb_spec resource "playlistitems"); done.
Qed.

Lemma _response_try_supported resource ep kw response st :
  endpoint_of resource = Some ep →
  _response_try execute resource kw response st = list_execute execute ep kw st.
Proof.
  intros Hep. pose proof (endpoint_of_cases resource) as H.
  rewrite Hep in H.
  destruct ep; subst resource; unfold _response_try, M_bind, list_execute, ret;
    simpl; destruct (execute _ _) as [[v|status] w]; reflexivity.
Qed.

Lemma _response_try_unsupported resource kw response st :
  endpoint_of resource = None →
  _response_try execute resource kw response st = (Ret response, st).
Proof.
  intros Hep. pose proof (endpoint_of_cases resource) as H.
  rewrite Hep in H. destruct H as (H1 & H2 & H3 & H4).
  unfold _response_try, M_bind, ret. by rewrite H1, H2, H3, H4.
Qed.

Lemma _response_body_supported resource ep kw response st :
  endpoint_of resource = Some ep →
  _response_body execute resource kw response st = turn execute ep kw response st.
Proof.
  intros Hep. unfold _response_body, try_except_HttpError, turn.
  rewrite (_response_try_supported _ ep) by done.
  unfold list_execute.
  destruct (execute _ _) as [[v|status] w]; [done|].
  unfold M_bind, rotate, ret. simpl.
  destruct (status =? 403); [|done].
  destruct (next _) as [[key|e|] it]; reflexivity.
Qed.

Lemma _response_body_unsupported resource kw response st :
  endpoint_of resource = None →
  _response_body execute resource kw response st = (Ret response, st).
Proof.
  intros Hep. unfold _response_body, try_except_HttpError.
  by rewrite _response_try_unsupported.
Qed.

(** [next] gives a key or raises [StopIteration]. *)
Lemma next_cases (it : list_iterator) :
  match next it with
  | (Ret key, it') =>
      ∃ l, it_seq it = Some l ∧ l !! it_index it = Some key
           ∧ it' = {| it_seq := Some l; it_index := S (it_index it) |}
  | (Raise e, it') => e = StopIteration ∧ it_seq it' = None
  | (OutOfFuel, _) => False
  end.
Proof.
  unfold next. destruct it as [[l|] i]; simpl; [|done].
  destruct (l !! i) eqn:Hl; eauto.
Qed.

(** The value that [response] holds between two turns is falsy, and
    which falsy value it is makes no difference. *)
Lemma _response_loop_falsy fuel resource kw response1 response2 st :
  truthy response1 = false → truthy response2 = false →
  _response_loop execute fuel resource kw response1 st
  = _response_loop execute fuel resource kw response2 st.
Proof.
  revert response1 response2 st.
  induction fuel as [|fuel IH]; intros r1 r2 st H1 H2; simpl;
    rewrite H1, H2; [done|].
  unfold M_bind.
  destruct (endpoint_of resource) as [ep|] eqn:Hep.
  - rewrite !(_response_body_supported _ ep) by done. unfold turn.
    destruct (execute _ _) as [[v|status] w]; [done|].
    destruct (status =? 403); [|by apply IH].
    destruct (next _) as [[key|e|] it]; [by apply IH|done|done].
  - rewrite !_response_body_unsupported by done. by apply IH.
Qed.

(** The loop unfolded by one turn. *)
Lemma _response_S fuel resource ep kw st :
  endpoint_of resource = Some ep →
  _response execute (S fuel) resource kw st
  = match turn execute ep (_remove_empty_kwargs kw) PNone st with
    | (Ret v, st') =>
        if truthy v then (Ret v, st')
        else _response execute fuel resource kw st'
    | (Raise e, st') => (Raise e, st')
    | (OutOfFuel, st') => (OutOfFuel, st')
    end.
Proof.
  intros Hep. unfold _response. simpl. unfold M_bind.
  rewrite (_response_body_supported _ ep) by done.
  destruct (turn _ _ _ _ _) as [[v|e|] st']; [|done|done].
  destruct (truthy v) eqn:Hv.
  - destruct fuel; simpl; by rewrite Hv.
  - by apply _response_loop_falsy.
Qed.

(** An unsupported resource: the loop turns without calling the API. *)
Lemma _response_loop_unsupported fuel resource kw response st :
  endpoint_of resource = None → truthy response = false →
  _response_loop execute fuel resource kw response st = (OutOfFuel, st).
Proof.
  intros Hep Hr. revert st. induction fuel as [|fuel IH]; intros st; simpl;
    rewrite Hr; [done|].
  unfold M_bind. rewrite _response_body_unsupported by done. apply IH.
Qed.

(** What comes out of the loop: a truthy response, [StopIteration], or
    nothing within the fuel. *)
Lemma _response_loop_result fuel resource kw response st :
  match (_response_loop execute fuel resource kw response st).1 with
  | Ret v => truthy v = true
  | Raise e => e = StopIteration
  | OutOfFuel => True
  end.
Proof.
  revert response st. induction fuel as [|fuel IH]; intros response st; simpl;
    destruct (truthy response) eqn:Hr; try done.
  unfold M_bind.
  destruct (endpoint_of resource) as [ep|] eqn:Hep.
  - rewrite (_response_body_supported _ ep) by done. unfold turn.
    destruct (execute _ _) as [[v|status] w]; [apply IH|].
    destruct (status =? 403); [|apply IH].
    pose proof (next_cases (api_key_iter (self st))) as Hn.
    destruct (next _) as [[key|e|] it]; [apply IH| |done].
    simpl. by destruct Hn.
  - rewrite _response_body_unsupported by done. apply IH.
Qed.

End ResponseLoop.

(** ** Runs against a scripted API *)

Section Scripted.

Implicit Types (c : crawler) (kw : kwargs) (log : list request).

Lemma rotated_S_next c (j : nat) c' :
  rotated c (S j) = Some c' →
  ∃ key it,
    next (api_key_iter c) = (Ret key, it)
    ∧ rotated (set_client (set_api_key_iter c it) (build key)) j = Some c'.
Proof.
  unfold rotated, next. destruct c as [[[l|] i] s p t]; simpl; [|done].
  destruct (l !! (i + j)%nat) as [keyj|] eqn:Hj; simpl; [|done].
  intros [= <-].
  destruct (lookup_lt_is_Some_2 l i) as [key0 H0].
  { apply lookup_lt_Some in Hj. lia. }
  rewrite H0. exists key0, {| it_seq := Some l; it_index := S i |}.
  split; [done|]. unfold set_client, set_api_key_iter. simpl.
  destruct j as [|j]; simpl.
  - rewrite Nat.add_0_r in Hj. rewrite Nat.add_1_r. congruence.
  - replace (i + S j)%nat with (S (i + j)) in Hj by lia. rewrite Hj. simpl.
    do 3 f_equal. lia.
Qed.

(** The replies that are retried are used up one per turn, and each
    status 403 among them moves the crawler one key further. *)
Lemma _response_scripted_retries resource ep kw (pre tail : list reply) :
  endpoint_of resource = Some ep →
  ∀ c c' log (fuel : nat),
    forallb retried pre = true →
    rotated c (rotations pre) = Some c' →
    ∃ reqs,
      length reqs = length pre
      ∧ Forall (λ q, req_endpoint q = ep
                     ∧ req_kwargs q = _remove_empty_kwargs kw) reqs
      ∧ _response scripted (length pre + fuel) resource kw
          {| self := c; world := {| pending := pre ++ tail; calls := log |} |}
        = _response scripted fuel resource kw
            {| self := c'; world := {| pending := tail; calls := log ++ reqs |} |}.
Proof.
  intros Hep. induction pre as [|r pre IH]; intros c c' log fuel Hpre Hrot.
  - exists []. simpl in *. injection Hrot as <-. by rewrite app_nil_r.
  - simpl in Hpre. apply andb_prop in Hpre as [Hr Hpre].
    set (req := {| req_client := client c; req_endpoint := ep;
                   req_kwargs := _remove_empty_kwargs kw |}).
    assert (∃ c1, rotated c1 (rotations pre) = Some c'
              ∧ _response scripted (length (r :: pre) + fuel) resource kw
                  {| self := c;
                     world := {| pending := (r :: pre) ++ tail; calls := log |} |}
                = _response scripted (length pre + fuel) resource kw
                    {| self := c1;
                       world := {| pending := pre ++ tail;
                                   calls := log ++ [req] |} |})
      as (c1 & Hrot1 & Hstep).
    { simpl length. simpl Nat.add. rewrite (_response_S _ _ _ ep) by done.
      unfold turn, scripted. simpl.
      destruct r as [v|status]; simpl in Hr.
      - apply negb_true_iff in Hr. rewrite Hr. by exists c.
      - unfold rotations in Hrot. simpl in Hrot.
        destruct (status =? 403) eqn:Hs; simpl in Hrot.
        + apply rotated_S_next in Hrot as (key & it & Hnext & Hrot).
          rewrite Hnext. simpl. eexists. split; [exact Hrot|done].
        + by exists c. }
    destruct (IH c1 c' (log ++ [req]) fuel Hpre Hrot1) as (reqs & Hlen & Hall & Hrun).
    exists (req :: reqs). split; [simpl; lia|]. split.
    + constructor; [done|exact Hall].
    + rewrite Hstep, Hrun. by rewrite <- app_assoc.
Qed.

(** The whole run: a truthy response after replies that are retried. *)
Lemma _response_scripted_returns resource ep kw (pre tail : list reply) v :
  endpoint_of resource = Some ep →
  forallb retried pre = true →
  truthy v = true →
  ∀ c c' log (fuel : nat),
    rotated c (rotations pre) = Some c' →
    (length pre < fuel)%nat →
    ∃ reqs,
      length reqs = length pre
      ∧ Forall (λ q, req_endpoint q = ep
                     ∧ req_kwargs q = _remove_empty_kwargs kw) reqs
      ∧ _response scripted fuel resource kw
          {| self := c;
             world := {| pending := pre ++ Response v :: tail; calls := log |} |}
        = (Ret v,
           {| self := c';
              world := {| pending := tail;
                          calls := log ++ reqs
                                   ++ [{| req_client := client c';
                                          req_endpoint := ep;
                                          req_kwargs := _remove_empty_kwargs kw |}]
                       |} |}).
Proof.
  intros Hep Hpre Hv c c' log fuel Hrot Hfuel.
  destruct (_response_scripted_retries resource ep kw pre (Response v :: tail)
              Hep c c' log (fuel - length pre) Hpre Hrot)
    as (reqs & Hlen & Hall & Hrun).
  exists reqs. split; [done|]. split; [done|].
  replace (length pre + (fuel - length pre))%nat with fuel in Hrun by lia.
  rewrite Hrun.
  destruct (fuel - length pre)%nat as [|fuel'] eqn:Hf; [lia|].
  rewrite (_response_S _ _ _ ep) by done.
  unfold turn, scripted. simpl. rewrite Hv.
  unfold set_world. simpl. by rewrite <- app_assoc.
Qed.

End Scripted.

(** C1: in [_response], a call that fails with status 403 makes the crawler
    take the next key of the pool, rebuild its session with it and try
    again; a call that fails with another status, or that gives an empty
    response, makes it try again with the same key; the first non-empty
    response is returned.  Nothing but a non-empty response or the
    [StopIteration] of an exhausted pool comes out, and against an API that
    answers a non-empty response after replies that are retried, with keys
    enough for the 403s among them, the response does come out. *)
Theorem _response_retries {World : Type} (execute : request → World → reply * World)
    (resource : string) (ep : endpoint) (kw : kwargs) :
  endpoint_of resource = Some ep →
  (∀ (st : state World) (fuel : nat),
     let req := {| req_client := client (self st); req_endpoint := ep;
                   req_kwargs := _remove_empty_kwargs kw |} in
     (∀ w key it,
        execute req (world st) = (Failure 403, w) →
        next (api_key_iter (self st)) = (Ret key, it) →
        _response execute (S fuel) resource kw st
        = _response execute fuel resource kw
            (set_self (set_world st w)
               (set_client (set_api_key_iter (self st) it) (build key))))
     ∧ (∀ w status,
          execute req (world st) = (Failure status, w) → status ≠ 403 →
          _response execute (S fuel) resource kw st
          = _response execute fuel resource kw (set_world st w))
     ∧ (∀ w v,
          execute req (world st) = (Response v, w) → truthy v = false →
          _response execute (S fuel) resource kw st
          = _response execute fuel resource kw (set_world st w))
     ∧ (∀ w v,
          execute req (world st) = (Response v, w) → truthy v = true →
          _response execute (S fuel) resource kw st = (Ret v, set_world st w))
     ∧ match (_response execute fuel resource kw st).1 with
       | Ret v => truthy v = true
       | Raise e => e = StopIteration
       | OutOfFuel => True
       end)
  ∧ (∀ (pre tail : list reply) (v : pyval) (c c' : crawler)
       (log : list request) (fuel : nat),
       forallb retried pre = true →
       truthy v = true →
       rotated c (rotations pre) = Some c' →
       (length pre < fuel)%nat →
       ∃ reqs,
         length reqs = length pre
         ∧ Forall (λ q, req_endpoint q = ep
                        ∧ req_kwargs q = _remove_empty_kwargs kw) reqs
         ∧ _response scripted fuel resource kw
             {| self := c;
                world := {| pending := pre ++ Response v :: tail; calls := log |} |}
           = (Ret v,
              {| self := c';
                 world := {| pending := tail;
                             calls := log ++ reqs
                                      ++ [{| req_client := client c';
                                             req_endpoint := ep;
                                             req_kwargs := _remove_empty_kwargs kw |}]
                          |} |})).
Proof.
  intros Hep. split.
  - intros st fuel req. repeat split.
    + intros w key it Hex Hnext. rewrite (_response_S _ _ _ ep) by done.
      unfold turn. fold req. rewrite Hex. simpl. by rewrite Hnext.
    + intros w status Hex Hs. rewrite (_response_S _ _ _ ep) by done.
      unfold turn. fold req. rewrite Hex.
      destruct (Z.eqb_spec status 403); done.
    + intros w v Hex Hv. rewrite (_response_S _ _ _ ep) by done.
      unfold turn. fold req. by rewrite Hex, Hv.
    + intros w v Hex Hv. rewrite (_response_S _ _ _ ep) by done.
      unfold turn. fold req. by rewrite Hex, Hv.
    + apply _response_loop_result.
  - intros pre tail v c c' log fuel Hpre Hv Hrot Hfuel.
    by apply _response_scripted_returns.
Qed.

(** C10: for a resource that is none of 'channels', 'search', 'videos' and
    'playlistitems', a turn of the loop of [_response] assigns no response
    and calls nothing, and [_response] gives no answer whatever the fuel,
    leaving the crawler and the API as they were. *)
Theorem _response_unsupported {World : Type}
    (execute : request → World → reply * World) (resource : string) (kw : kwargs) :
  resource ∉ ["channels"; "search"; "videos"; "playlistitems"] →
  (∀ (response : pyval) (st : state World),
     _response_body execute resource (_remove_empty_kwargs kw) response st
     = (Ret response, st))
  ∧ (∀ (fuel : nat) (st : state World),
       _response execute fuel resource kw st = (OutOfFuel, st)).
Proof.
  intros Hres.
  assert (endpoint_of resource = None) as Hep.
  { pose proof (endpoint_of_cases resource) as H.
    destruct (endpoint_of resource) as [[]|]; [subst resource..|done];
      exfalso; apply Hres; set_solver. }
  split.
  - intros response st. by apply _response_body_unsupported.
  - intros fuel st. by apply _response_loop_unsupported.
Qed.

Lemma _response_retries_witness :
  endpoint_of "channels" = Some channels
  ∧ ∃ reqs,
      length reqs = 2%nat
      ∧ Forall (λ q, req_endpoint q = channels
                     ∧ req_kwargs q = _remove_empty_kwargs {[ "id" := PStr "UC1" ]})
               reqs
      ∧ _response scripted 3 "channels" {[ "id" := PStr "UC1" ]}
          {| self := {| api_key_iter := {| it_seq := Some ["k1"; "k2"]; it_index := 1 |};
                        client := build "k1"; processes := 10; thread := false |};
             world := {| pending := [Failure 403; Failure 500]
                                    ++ [Response (PDict [("items", PList [])])];
                         calls := [] |} |}
        = (Ret (PDict [("items", PList [])]),
           {| self := {| api_key_iter := {| it_seq := Some ["k1"; "k2"]; it_index := 2 |};
                         client := build "k2"; processes := 10; thread := false |};
              world := {| pending := [];
                          calls := [] ++ reqs
                                   ++ [{| req_client := build "k2";
                                          req_endpoint := channels;
                                          req_kwargs :=
                                            _remove_empty_kwargs {[ "id" := PStr "UC1" ]} |}]
                       |} |}).
Proof.
  split; [reflexivity|].
  destruct (_response_retries scripted "channels" channels {[ "id" := PStr "UC1" ]}
              eq_refl) as [_ H].
  apply (H [Failure 403; Failure 500] [] (PDict [("items", PList [])])
           {| api_key_iter := {| it_seq := Some ["k1"; "k2"]; it_index := 1 |};
              client := build "k1"; processes := 10; thread := false |}
           {| api_key_iter := {| it_seq := Some ["k1"; "k2"]; it_index := 2 |};
              client := build "k2"; processes := 10; thread := false |}
           [] 3%nat); [reflexivity | reflexivity | reflexivity | simpl; lia].
Defined.

Lemma _response_unsupported_witness :
  (∀ (response : pyval) (st : state script),
     _response_body scripted "playlistItems" (_remove_empty_kwargs ∅) response st
     = (Ret response, st))
  ∧ (∀ (fuel : nat) (st : state script),
       _response scripted fuel "playlistItems" ∅ st = (OutOfFuel, st)).
Proof.
  apply (_response_unsupported scripted "playlistItems" ∅).
  rewrite !not_elem_of_cons. repeat split; [discriminate..|].
  apply not_elem_of_nil.
Defined.

(** ** The key pool *)

Section KeyPool.

Implicit Types (c : crawler) (kw : kwargs) (log : list request).

Lemma turn_scripted ep kw (response : pyval) c (r : reply) (ps : list reply) log :
  turn scripted ep kw response
    {| self := c; world := {| pending := r :: ps; calls := log |} |}
  = let w := {| pending := ps;
                calls := log ++ [{| req_client := client c; req_endpoint := ep;
                                    req_kwargs := kw |}] |} in
    match r with
    | Response v => (Ret v, {| self := c; world := w |})
    | Failure status =>
        if status =? 403 then
          match next (api_key_iter c) with
          | (Ret key, it) =>
              (Ret response,
               {| self := set_client (set_api_key_iter c it) (build key);
                  world := w |})
          | (Raise e, it) =>
              (Raise e, {| self := set_api_key_iter c it; world := w |})
          | (OutOfFuel, it) =>
              (OutOfFuel, {| self := set_api_key_iter c it; world := w |})
          end
        else (Ret response, {| self := c; world := w |})
    end.
Proof.
  unfold turn. simpl. destruct r as [v|status]; [done|].
  destruct (status =? 403); [|done].
  by destruct (next (api_key_iter c)) as [[key|e|] it].
Qed.

(** Against an API that answers 403 every time, the keys that are left
    are used one after the other, and then the pool is exhausted. *)
Lemma _response_scripted_exhausts resource ep kw (l : list string) (tail : list reply) :
  endpoint_of resource = Some ep →
  ∀ (ks : list string) (i : nat) c log (n fuel : nat),
    drop i l = ks →
    api_key_iter c = {| it_seq := Some l; it_index := i |} →
    (length ks < n)%nat → (length ks < fuel)%nat →
    ∃ c',
      it_seq (api_key_iter c') = None
      ∧ _response scripted fuel resource kw
          {| self := c;
             world := {| pending := replicate n (Failure 403) ++ tail;
                         calls := log |} |}
        = (Raise StopIteration,
           {| self := c';
              world :=
                {| pending := replicate (n - S (length ks)) (Failure 403) ++ tail;
                   calls := log
                            ++ map (λ s, {| req_client := s; req_endpoint := ep;
                                            req_kwargs := _remove_empty_kwargs kw |})
                                   (client c :: map build ks) |} |}).
Proof.
  intros Hep ks. induction ks as [|key ks IH]; intros i c log n fuel Hdrop Hit Hn Hfuel;
    destruct n as [|n]; [simpl in Hn; lia| |simpl in Hn; lia|];
    destruct fuel as [|fuel]; [simpl in Hfuel; lia| |simpl in Hfuel; lia|];
    rewrite (_response_S _ _ _ ep) by done;
    simpl replicate; simpl app; rewrite turn_scripted; simpl;
    rewrite Hit; unfold next; simpl.
  - assert (l !! i = None) as ->.
    { apply lookup_ge_None. apply drop_nil_inv in Hdrop. lia. }
    eexists. split; [|rewrite Nat.sub_0_r; reflexivity]. done.
  - assert (l !! i = Some key) as ->.
    { rewrite <- (Nat.add_0_r i), <- lookup_drop, Hdrop. done. }
    simpl.
    edestruct (IH (S i) (set_client
                           (set_api_key_iter c {| it_seq := Some l; it_index := S i |})
                           (build key))
                 (log ++ [{| req_client := client c; req_endpoint := ep;
                             req_kwargs := _remove_empty_kwargs kw |}])
                 n fuel) as (c' & Hnone & Hrun).
    + replace (S i) with (i + 1)%nat by lia.
      rewrite <- drop_drop, Hdrop. done.
    + done.
    + simpl in Hn. lia.
    + simpl in Hfuel. lia.
    + exists c'. split; [done|].
      rewrite Hrun. simpl. by rewrite <- app_assoc.
Qed.

End KeyPool.

(** C6: the keys of the pool are taken in the order of the list, one per
    rotation, and none comes back: against an API that answers 403 to
    every call, a crawler built on a list of keys calls it once with each
    key, in order; the rotation asked for after the last key raises
    [StopIteration], which [_response] does not catch and which ends
    [_video_desc] and [channel_countstats] as well; from then on the
    iterator is exhausted and every further rotation raises again. *)
Theorem key_pool_in_order (api_key_list : list string) (n fuel : nat)
    (tail : list reply) :
  api_key_list ≠ [] →
  (length api_key_list ≤ n)%nat →
  (length api_key_list ≤ fuel)%nat →
  ∃ st,
    start api_key_list (replicate n (Failure 403) ++ tail) = Ret st
    ∧ (∀ resource ep kw,
         endpoint_of resource = Some ep →
         ∃ st',
           _response scripted fuel resource kw st = (Raise StopIteration, st')
           ∧ calls (world st')
             = map (λ key, {| req_client := build key; req_endpoint := ep;
                              req_kwargs := _remove_empty_kwargs kw |})
                   api_key_list
           ∧ pending (world st')
             = replicate (n - length api_key_list) (Failure 403) ++ tail
           ∧ it_seq (api_key_iter (self st')) = None
           ∧ (rotate st').1 = Raise StopIteration
           ∧ it_seq (api_key_iter (self (rotate st').2)) = None)
    ∧ (∀ ch_id upload_id,
         (_video_desc scripted fuel ch_id upload_id st).1 = Raise StopIteration)
    ∧ (∀ id, (channel_countstats scripted fuel id st).1 = Raise StopIteration).
Proof.
  intros Hne Hn Hfuel.
  destruct api_key_list as [|key0 keys]; [done|]. simpl in Hn, Hfuel.
  set (c0 := {| api_key_iter := {| it_seq := Some (key0 :: keys); it_index := 1 |};
                client := build key0; processes := 10; thread := false |}).
  set (st0 := {| self := c0;
                 world := {| pending := replicate n (Failure 403) ++ tail;
                             calls := [] |} |}).
  exists st0. split; [reflexivity|].
  assert (∀ resource ep kw,
            endpoint_of resource = Some ep →
            ∃ st',
              _response scripted fuel resource kw st0 = (Raise StopIteration, st')
              ∧ calls (world st')
                = map (λ key, {| req_client := build key; req_endpoint := ep;
                                 req_kwargs := _remove_empty_kwargs kw |})
                      (key0 :: keys)
              ∧ pending (world st')
                = replicate (n - length (key0 :: keys)) (Failure 403) ++ tail
              ∧ it_seq (api_key_iter (self st')) = None) as Hrun.
  { intros resource ep kw Hep.
    destruct (_response_scripted_exhausts resource ep kw (key0 :: keys) tail Hep
                keys 1%nat c0 [] n fuel eq_refl eq_refl ltac:(lia) ltac:(lia))
      as (c' & Hnone & Hrun).
    eexists. split; [exact Hrun|]. simpl. rewrite map_map. done. }
  split; [|split].
  - intros resource ep kw Hep.
    destruct (Hrun resource ep kw Hep) as (st' & H1 & H2 & H3 & H4).
    exists st'. repeat split; try done.
    + unfold rotate, next. by rewrite H4.
    + unfold rotate, next. by rewrite H4.
  - intros ch_id upload_id.
    destruct (Hrun "playlistitems" playlistItems
                (playlistitems_kwargs upload_id (PStr "")) eq_refl)
      as (st' & H1 & _).
    unfold _video_desc. destruct fuel as [|fuel']; [lia|].
    cbn [_video_desc_loop]. unfold M_bind at 1. by rewrite H1.
  - intros id.
    destruct (Hrun "channels" channels (countstats_kwargs id) eq_refl)
      as (st' & H1 & _).
    unfold channel_countstats, M_bind. by rewrite H1.
Qed.

Lemma key_pool_in_order_witness :
  ∃ st,
    start ["k1"; "k2"; "k3"] (replicate 4 (Failure 403) ++ []) = Ret st
    ∧ (∀ resource ep kw,
         endpoint_of resource = Some ep →
         ∃ st',
           _response scripted 5 resource kw st = (Raise StopIteration, st')
           ∧ calls (world st')
             = map (λ key, {| req_client := build key; req_endpoint := ep;
                              req_kwargs := _remove_empty_kwargs kw |})
                   ["k1"; "k2"; "k3"]
           ∧ pending (world st')
             = replicate (4 - length ["k1"; "k2"; "k3"]) (Failure 403) ++ []
           ∧ it_seq (api_key_iter (self st')) = None
           ∧ (rotate st').1 = Raise StopIteration
           ∧ it_seq (api_key_iter (self (rotate st').2)) = None)
    ∧ (∀ ch_id upload_id,
         (_video_desc scripted 5 ch_id upload_id st).1 = Raise StopIteration)
    ∧ (∀ id, (channel_countstats scripted 5 id st).1 = Raise StopIteration).
Proof.
  apply (key_pool_in_order ["k1"; "k2"; "k3"] 4 5 []);
    [discriminate | simpl; lia | simpl; lia].
Defined.

(** ** The pagination loop of [_video_desc] *)

Section Pagination.

Implicit Types (c : crawler) (kw : kwargs) (log : list request).

Lemma _response_scripted_first resource ep kw (v : pyval) c log
    (tail : list reply) (fuel : nat) :
  endpoint_of resource = Some ep →
  truthy v = true →
  (0 < fuel)%nat →
  _response scripted fuel resource kw
    {| self := c; world := {| pending := Response v :: tail; calls := log |} |}
  = (Ret v,
     {| self := c;
        world := {| pending := tail;
                    calls := log ++ [{| req_client := client c; req_endpoint := ep;
                                        req_kwargs := _remove_empty_kwargs kw |}]
                 |} |}).
Proof.
  intros Hep Hv Hfuel. destruct fuel as [|fuel]; [lia|].
  rewrite (_response_S _ _ _ ep) by done.
  rewrite turn_scripted. simpl. by rewrite Hv.
Qed.

Lemma dict_get_keys (d : list (string * pyval)) (key : string) :
  key ∈ map fst d → is_Some (dict_get d key).
Proof.
  induction d as [|[k v] d IH]; simpl.
  - intros H. by apply elem_of_nil in H.
  - intros H. destruct (String.eqb_spec k key); [eauto|].
    apply elem_of_cons in H as [->|H]; [done|]. by apply IH.
Qed.

Lemma has_next_page_token (response : pyval) :
  has_next_page response = true →
  ∃ ks, keys response = Ret ks
        ∧ bool_decide ("nextPageToken" ∈ ks) = true
        ∧ subscript response "nextPageToken" = Ret (page_token response).
Proof.
  unfold has_next_page, page_token.
  destruct response as [| | | | | |d]; simpl; try done.
  intros H. exists (map fst d). split; [done|]. split; [done|].
  apply bool_decide_eq_true in H.
  by destruct (dict_get_keys d "nextPageToken" H) as [t ->].
Qed.

Lemma has_no_next_page (response : pyval) (vs : list pyval) :
  video_dicts response = Ret vs →
  has_next_page response = false →
  ∃ ks, keys response = Ret ks ∧ bool_decide ("nextPageToken" ∈ ks) = false.
Proof.
  unfold has_next_page, video_dicts.
  destruct response as [| | | | | |d]; simpl; try done. eauto.
Qed.

(** A response with items is not empty. *)
Lemma video_dicts_truthy (response : pyval) (vs : list pyval) :
  video_dicts response = Ret vs → truthy response = true.
Proof.
  unfold video_dicts.
  destruct response as [| | | | | |d]; simpl; try done.
  by destruct d.
Qed.

Lemma _video_desc_loop_pages c (ch_id upload_id last : pyval) (tail : list reply) :
  has_next_page last = false →
  ∀ (pages : list pyval) (videos : list (list pyval)) (token : pyval)
    (video_dict_list : list pyval) log (rfuel fuel : nat),
    Forall (λ response, has_next_page response = true) pages →
    mapM video_dicts (pages ++ [last]) = Ret videos →
    (0 < rfuel)%nat → (length pages < fuel)%nat →
    _video_desc_loop scripted rfuel fuel ch_id upload_id token video_dict_list
      {| self := c;
         world := {| pending := map Response (pages ++ [last]) ++ tail;
                     calls := log |} |}
    = (Ret (PDict [("ch_id", ch_id); ("upload_id", upload_id);
                   ("video_info_list",
                    PList (video_dict_list ++ concat videos))]),
       {| self := c;
          world := {| pending := tail;
                      calls := log ++ map (page_request c upload_id)
                                          (token :: map page_token pages) |} |}).
Proof.
  intros Hlast pages.
  induction pages as [|page pages IH];
    intros videos token acc log rfuel fuel Hpages Hvideos Hrfuel Hfuel;
    (destruct fuel as [|fuel]; [simpl in Hfuel; lia|]);
    simpl in Hvideos;
    [destruct (video_dicts last) as [vs| |] eqn:Hvs
    |destruct (video_dicts page) as [vs| |] eqn:Hvs]; simpl in Hvideos; try done.
  - injection Hvideos as <-.
    destruct (has_no_next_page last vs Hvs Hlast) as (ks & Hks & Hmem).
    cbn [_video_desc_loop]. unfold M_bind at 1. simpl map. simpl app.
    rewrite (_response_scripted_first _ playlistItems)
      by eauto using video_dicts_truthy.
    unfold M_bind, lift. rewrite Hvs, Hks, Hmem. unfold ret. simpl.
    by rewrite app_nil_r.
  - destruct (mapM video_dicts (pages ++ [last])) as [videos'| |] eqn:Hrest;
      simpl in Hvideos; try done.
    injection Hvideos as <-.
    apply Forall_cons in Hpages as [Hpage Hpages].
    destruct (has_next_page_token page Hpage) as (ks & Hks & Hmem & Htok).
    cbn [_video_desc_loop]. unfold M_bind at 1. simpl map. simpl app.
    rewrite (_response_scripted_first _ playlistItems)
      by eauto using video_dicts_truthy.
    unfold M_bind, lift. rewrite Hvs, Hks, Hmem, Htok.
    fold (page_request c upload_id token).
    rewrite (IH videos' (page_token page) (acc ++ vs)
               (log ++ [page_request c upload_id token]) rfuel fuel)
      by (try done; simpl in Hfuel; lia).
    simpl. by rewrite <- !app_assoc.
Qed.

End Pagination.

(** C2: when the API answers [_video_desc] with a sequence of
    playlist-items responses of which only the last has no next-page
    token, [_video_desc] calls the playlist-items endpoint once per
    response, each time with page size 50 and with the token of the
    response before (none for the first call), stops at the response
    without token, and returns the video dicts of all the pages in order
    together with the channel id and the upload-playlist id. *)
Theorem _video_desc_pages (c : crawler) (ch_id upload_id : pyval)
    (pages : list pyval) (last : pyval) (videos : list (list pyval))
    (tail : list reply) (log : list request) (fuel : nat) :
  Forall (λ response, has_next_page response = true) pages →
  has_next_page last = false →
  mapM video_dicts (pages ++ [last]) = Ret videos →
  (length pages < fuel)%nat →
  _video_desc scripted fuel ch_id upload_id
    {| self := c;
       world := {| pending := map Response (pages ++ [last]) ++ tail;
                   calls := log |} |}
  = (Ret (PDict [("ch_id", ch_id); ("upload_id", upload_id);
                 ("video_info_list", PList (concat videos))]),
     {| self := c;
        world := {| pending := tail;
                    calls := log ++ map (page_request c upload_id)
                                        (PStr "" :: map page_token pages) |} |})
  ∧ ∀ token,
      req_endpoint (page_request c upload_id token) = playlistItems
      ∧ req_kwargs (page_request c upload_id token) !! "maxResults"
        = Some (PInt 50)
      ∧ req_kwargs (page_request c upload_id token) !! "pageToken"
        = (if truthy token then Some token else None).
Proof.
  intros Hpages Hlast Hvideos Hfuel. split.
  - unfold _video_desc.
    by rewrite (_video_desc_loop_pages c ch_id upload_id last tail Hlast
                  pages videos (PStr "") [] log fuel fuel) by (done || lia).
  - intros token. split; [done|]. unfold page_request. simpl.
    rewrite !_remove_empty_kwargs_lookup. unfold playlistitems_kwargs.
    split.
    + by rewrite lookup_insert_ne, lookup_insert_ne, lookup_insert_eq.
    + rewrite !lookup_insert_ne by done. by rewrite lookup_singleton_eq.
Qed.

Lemma _video_desc_pages_witness :
  _video_desc scripted 2 (PStr "UC1") (PStr "UU1")
    {| self := sample_crawler;
       world := {| pending := map Response ([sample_page (Some "T1") ["v1"; "v2"]]
                                            ++ [sample_page None ["v3"]]) ++ [];
                   calls := [] |} |}
  = (Ret (PDict [("ch_id", PStr "UC1"); ("upload_id", PStr "UU1");
                 ("video_info_list",
                  PList (concat [[sample_video "v1"; sample_video "v2"];
                                 [sample_video "v3"]]))]),
     {| self := sample_crawler;
        world := {| pending := [];
                    calls := [] ++ map (page_request sample_crawler (PStr "UU1"))
                                       (PStr "" :: map page_token
                                                     [sample_page (Some "T1")
                                                                  ["v1"; "v2"]]) |} |})
  ∧ ∀ token,
      req_endpoint (page_request sample_crawler (PStr "UU1") token) = playlistItems
      ∧ req_kwargs (page_request sample_crawler (PStr "UU1") token) !! "maxResults"
        = Some (PInt 50)
      ∧ req_kwargs (page_request sample_crawler (PStr "UU1") token) !! "pageToken"
        = (if truthy token then Some token else None).
Proof.
  apply (_video_desc_pages sample_crawler (PStr "UC1") (PStr "UU1")
           [sample_page (Some "T1") ["v1"; "v2"]] (sample_page None ["v3"])
           [[sample_video "v1"; sample_video "v2"]; [sample_video "v3"]] [] [] 2).
  - repeat constructor.
  - reflexivity.
  - reflexivity.
  - simpl. lia.
Defined.

(** ** [channel_countstats] *)

Section CountStats.

(** The loop appends one entry per item, each made by the body of the
    loop from the [view_count] that the turns before left. *)
Lemma channel_countstats_fold (items : list pyval) :
  ∀ (result_list results : list pyval) (view_count view_count' : option Z),
    foldM (λ '(result_list, view_count) response,
             let* (entry, view_count) :=
               channel_countstats_body view_count response in
             Ret (result_list ++ [entry], view_count))
          (result_list, view_count) items
    = Ret (results, view_count') →
    ∃ entries,
      results = result_list ++ entries
      ∧ ∀ (i : nat) response,
          items !! i = Some response →
          ∃ vc entry vc',
            channel_countstats_body vc response = Ret (entry, vc')
            ∧ entries !! i = Some entry.
Proof.
  induction items as [|item items IH]; intros acc results vc vc' H; simpl in H.
  - injection H as <- <-. exists []. split; [by rewrite app_nil_r|].
    intros i response Hi. by rewrite lookup_nil in Hi.
  - destruct (channel_countstats_body vc item) as [[entry vc1]| |] eqn:Hbody;
      simpl in H; try done.
    destruct (IH _ _ _ _ H) as (entries & -> & Hentries).
    exists (entry :: entries). split; [by rewrite <- app_assoc|].
    intros [|i] response Hi; simpl in Hi.
    + injection Hi as <-. eauto.
    + by apply Hentries.
Qed.

(** The body of the loop on a channel whose subscriber count is hidden. *)
Lemma channel_countstats_body_hidden (view_count : option Z)
    (response statistics_response ch_id : pyval) (views videos : Z) :
  subscript response "id" = Ret ch_id →
  subscript response "statistics" = Ret statistics_response →
  subscript statistics_response "hiddenSubscriberCount" = Ret (PBool true) →
  (let* v := subscript statistics_response "viewCount" in py_int v) = Ret views →
  (let* v := subscript statistics_response "videoCount" in py_int v) = Ret videos →
  channel_countstats_body view_count response
  = Ret (PDict [("ch_id", ch_id); ("subscriberCount", PNone);
                ("viewCount", PInt views); ("videoCount", PInt videos);
                ("sub_view_ratio", PNone)],
         Some views).
Proof.
  intros Hid Hstat Hhidden Hviews Hvideos. unfold channel_countstats_body.
  rewrite Hid. simpl. rewrite Hstat. simpl. rewrite Hhidden. simpl.
  rewrite Hviews. simpl. rewrite Hvideos. done.
Qed.

(** Whatever else the record holds, an entry made for a channel whose
    subscriber count is hidden has no subscriber count and no ratio. *)
Lemma channel_countstats_body_hidden_entry (view_count view_count' : option Z)
    (response statistics_response entry : pyval) :
  subscript response "statistics" = Ret statistics_response →
  subscript statistics_response "hiddenSubscriberCount" = Ret (PBool true) →
  channel_countstats_body view_count response = Ret (entry, view_count') →
  subscript entry "subscriberCount" = Ret PNone
  ∧ subscript entry "sub_view_ratio" = Ret PNone.
Proof.
  intros Hstat Hhidden. unfold channel_countstats_body.
  destruct (subscript response "id") as [ch_id| |]; simpl; try done.
  rewrite Hstat. simpl. rewrite Hhidden. simpl.
  destruct (res_bind (subscript statistics_response "viewCount") _)
    as [views| |]; simpl; try done.
  destruct (res_bind (subscript statistics_response "videoCount") _)
    as [videos| |]; simpl; try done.
  by intros [= <- _].
Qed.

(** [channel_countstats] on the first response of a scripted API. *)
Lemma channel_countstats_scripted (c : crawler) (id : pyval) (items : list pyval)
    (extra : list (string * pyval)) (tail : list reply) (log : list request)
    (fuel : nat) :
  (0 < fuel)%nat →
  channel_countstats scripted fuel id
    {| self := c;
       world := {| pending := Response (PDict (("items", PList items) :: extra))
                              :: tail;
                   calls := log |} |}
  = (channel_countstats_items items,
     {| self := c;
        world := {| pending := tail;
                    calls := log ++ [{| req_client := client c;
                                        req_endpoint := channels;
                                        req_kwargs :=
                                          _remove_empty_kwargs (countstats_kwargs id)
                                     |}] |} |}).
Proof.
  intros Hfuel. unfold channel_countstats, M_bind.
  by rewrite (_response_scripted_first _ channels).
Qed.

End CountStats.

(** C7: for a channel whose record has [hiddenSubscriberCount] true,
    the entry that [channel_countstats] makes has [subscriberCount] and
    [sub_view_ratio] both [None], whatever the record holds besides and
    whatever the channels before it were: the body of the loop makes this
    entry as soon as the record has an id and counts of views and videos
    that [int] accepts, and in every list of items on which
    [channel_countstats] returns, the entry of this channel is such. *)
Theorem channel_countstats_hidden (response statistics_response : pyval) :
  subscript response "statistics" = Ret statistics_response →
  subscript statistics_response "hiddenSubscriberCount" = Ret (PBool true) →
  (∀ (view_count : option Z) (ch_id : pyval) (views videos : Z),
     subscript response "id" = Ret ch_id →
     (let* v := subscript statistics_response "viewCount" in py_int v) = Ret views →
     (let* v := subscript statistics_response "videoCount" in py_int v) = Ret videos →
     channel_countstats_body view_count response
     = Ret (PDict [("ch_id", ch_id); ("subscriberCount", PNone);
                   ("viewCount", PInt views); ("videoCount", PInt videos);
                   ("sub_view_ratio", PNone)],
            Some views))
  ∧ (∀ (items results : list pyval) (i : nat) (c : crawler) (id : pyval)
       (extra : list (string * pyval)) (tail : list reply) (log : list request)
       (fuel : nat),
       (0 < fuel)%nat →
       items !! i = Some response →
       (channel_countstats scripted fuel id
          {| self := c;
             world := {| pending := Response (PDict (("items", PList items) :: extra))
                                    :: tail;
                         calls := log |} |}).1
       = Ret results →
       ∃ entry,
         results !! i = Some entry
         ∧ subscript entry "subscriberCount" = Ret PNone
         ∧ subscript entry "sub_view_ratio" = Ret PNone).
Proof.
  intros Hstat Hhidden. split.
  - intros view_count ch_id views videos Hid Hviews Hvideos.
    by apply (channel_countstats_body_hidden _ _ statistics_response).
  - intros items results i c id extra tail log fuel Hfuel Hi Hrun.
    rewrite channel_countstats_scripted in Hrun by done. simpl in Hrun.
    unfold channel_countstats_items in Hrun.
    destruct (foldM _ _ items) as [[results' vc']| |] eqn:Hfold;
      simpl in Hrun; try done.
    injection Hrun as ->.
    destruct (channel_countstats_fold items _ _ _ _ Hfold) as (entries & -> & Hentries).
    destruct (Hentries i response Hi) as (vc & entry & vc1 & Hbody & Hentry).
    exists entry. split; [done|].
    by apply (channel_countstats_body_hidden_entry vc vc1 response statistics_response).
Qed.

Lemma channel_countstats_hidden_witness :
  (channel_countstats scripted 1 (PStr "UC0")
     {| self := sample_crawler;
        world := {| pending :=
                      [Response (PDict [("items",
                                         PList [sample_channel "UC0" true
                                                               "100" "500" "3"])])];
                    calls := [] |} |}).1
  = Ret [PDict [("ch_id", PStr "UC0"); ("subscriberCount", PNone);
                ("viewCount", PInt 500); ("videoCount", PInt 3);
                ("sub_view_ratio", PNone)]]
  ∧ ∃ entry,
      [PDict [("ch_id", PStr "UC0"); ("subscriberCount", PNone);
              ("viewCount", PInt 500); ("videoCount", PInt 3);
              ("sub_view_ratio", PNone)]] !! 0%nat = Some entry
      ∧ subscript entry "subscriberCount" = Ret PNone
      ∧ subscript entry "sub_view_ratio" = Ret PNone.
Proof.
  split; [reflexivity|].
  destruct (channel_countstats_hidden
              (sample_channel "UC0" true "100" "500" "3")
              (PDict [("viewCount", PStr "500"); ("subscriberCount", PStr "100");
                      ("hiddenSubscriberCount", PBool true);
                      ("videoCount", PStr "3")])
              eq_refl eq_refl) as [_ H].
  apply (H [sample_channel "UC0" true "100" "500" "3"] _ 0%nat sample_crawler
           (PStr "UC0") [] [] [] 1%nat); [lia | reflexivity | reflexivity].
Defined.

(** C3 (what the code does): the ratio is computed from [view_count]
    before the turn assigns it.  For a single channel with 100 subscribers
    and 500 views, and for one with 0 subscribers, [channel_countstats]
    raises [UnboundLocalError]; for a channel that comes second, the ratio
    is taken from the views of the channel before it (7), not from its
    own (500). *)
Theorem channel_countstats_ratio_before_view_count :
  (channel_countstats scripted 1 (PStr "UC1")
     {| self := sample_crawler;
        world := {| pending :=
                      [Response (PDict [("items",
                                         PList [sample_channel "UC1" false
                                                               "100" "500" "3"])])];
                    calls := [] |} |}).1
  = Raise (UnboundLocalError "view_count")
  ∧ (channel_countstats scripted 1 (PStr "UC1")
       {| self := sample_crawler;
          world := {| pending :=
                        [Response (PDict [("items",
                                           PList [sample_channel "UC1" false
                                                                 "0" "500" "3"])])];
                      calls := [] |} |}).1
    = Raise (UnboundLocalError "view_count")
  ∧ (channel_countstats scripted 1 (PStr "UC0,UC1")
       {| self := sample_crawler;
          world := {| pending :=
                        [Response (PDict [("items",
                                           PList [sample_channel "UC0" true
                                                                 "1" "7" "1";
                                                  sample_channel "UC1" false
                                                                 "100" "500" "3"])])];
                      calls := [] |} |}).1
    = Ret [PDict [("ch_id", PStr "UC0"); ("subscriberCount", PNone);
                  ("viewCount", PInt 7); ("videoCount", PInt 1);
                  ("sub_view_ratio", PNone)];
           PDict [("ch_id", PStr "UC1"); ("subscriberCount", PInt 100);
                  ("viewCount", PInt 500); ("videoCount", PInt 3);
                  ("sub_view_ratio", PFloat (7 # 100))]].
Proof.
  rewrite !channel_countstats_scripted by lia.
  repeat split; vm_compute; reflexivity.
Qed.

(** ** [statistics_sum] *)

(** C4 (what the code does): [statistics_sum] never reads its arguments;
    it iterates over the global name [vsc], which the module does not
    bind, so that every call raises [NameError]. *)
Theorem statistics_sum_unbound_vsc :
  (∀ args : list pyval, statistics_sum module_vsc args = Raise (NameError "vsc"))
  ∧ (∀ (global_vsc : option pyval) (args args' : list pyval),
       statistics_sum global_vsc args = statistics_sum global_vsc args').
Proof. split; reflexivity. Qed.

(** ** The filters that [_response] transmits *)

Section Transmitted.

Lemma scripted_calls (req : request) (w : script) :
  calls (scripted req w).2 = calls w ++ [req].
Proof. unfold scripted. by destruct (pending w). Qed.

(** Every request that the loop of [_response] makes carries the
    keyword arguments the loop was given. *)
Lemma _response_loop_scripted_kwargs (fuel : nat) (resource : string)
    (kw : kwargs) (response : pyval) (st : state script) :
  ∃ new,
    calls (world (_response_loop scripted fuel resource kw response st).2)
    = calls (world st) ++ new
    ∧ Forall (λ q, req_kwargs q = kw) new.
Proof.
  revert response st. induction fuel as [|fuel IH]; intros response st; simpl;
    destruct (truthy response);
    try (exists []; split; [by rewrite app_nil_r | constructor]).
  unfold M_bind.
  destruct (endpoint_of resource) as [ep|] eqn:Hep.
  - rewrite (_response_body_supported _ _ ep) by done. unfold turn.
    set (req := {| req_client := client (self st); req_endpoint := ep;
                   req_kwargs := kw |}).
    pose proof (scripted_calls req (world st)) as Hcalls.
    destruct (scripted req (world st)) as [r w]. simpl in Hcalls.
    assert (∀ response' c,
              ∃ new,
                calls (world (_response_loop scripted fuel resource kw response'
                                (set_self (set_world st w) c)).2)
                = calls (world st) ++ new
                ∧ Forall (λ q, req_kwargs q = kw) new) as Hnext.
    { intros response' c.
      destruct (IH response' (set_self (set_world st w) c)) as (new & Hnew & Hall).
      exists (req :: new). split; [|by constructor].
      rewrite Hnew. simpl. rewrite Hcalls. by rewrite <- app_assoc. }
    assert (∃ new, calls w = calls (world st) ++ new
                   ∧ Forall (λ q, req_kwargs q = kw) new) as Hstop.
    { exists [req]. split; [done|]. by repeat constructor. }
    destruct r as [v|status].
    + destruct st as [c w0]. apply (Hnext v c).
    + destruct (status =? 403).
      * destruct (next (api_key_iter (self st))) as [[key|e|] it]; simpl;
          [apply Hnext|exact Hstop|exact Hstop].
      * destruct st as [c w0]. apply (Hnext response c).
  - rewrite _response_body_unsupported by done. apply IH.
Qed.

End Transmitted.

(** C5: the filters that [_response] transmits are those that
    [_remove_empty_kwargs] keeps: a key whose value is falsy (an empty
    string, zero, an empty collection, [None]) is absent from them, a key
    whose value is truthy is there with the same value, nothing else is,
    and every request made carries exactly these filters. *)
Theorem _remove_empty_kwargs_truthy (kw : kwargs) (key : string) :
  match kw !! key with
  | Some value =>
      if truthy value then _remove_empty_kwargs kw !! key = Some value
      else _remove_empty_kwargs kw !! key = None
  | None => _remove_empty_kwargs kw !! key = None
  end
  ∧ ∀ (fuel : nat) (resource : string) (st : state script),
      ∃ new,
        calls (world (_response scripted fuel resource kw st).2)
        = calls (world st) ++ new
        ∧ Forall (λ q, req_kwargs q = _remove_empty_kwargs kw) new.
Proof.
  split.
  - rewrite _remove_empty_kwargs_lookup.
    destruct (kw !! key) as [value|]; [|done]. by destruct (truthy value).
  - intros fuel resource st. apply _response_loop_scripted_kwargs.
Qed.

(** * Further properties *)

(** ** [_remove_empty_kwargs], again *)

(** X1: pruning keeps a part of the filters it is given, and pruning what
    has been pruned changes nothing. *)
Theorem _remove_empty_kwargs_idempotent (kw : kwargs) :
  _remove_empty_kwargs kw ⊆ kw
  ∧ _remove_empty_kwargs (_remove_empty_kwargs kw) = _remove_empty_kwargs kw.
Proof.
  split.
  - apply map_subseteq_spec. intros key value.
    rewrite _remove_empty_kwargs_lookup.
    destruct (kw !! key) as [v|]; [|done]. by destruct (truthy v).
  - apply map_eq. intros key. rewrite !_remove_empty_kwargs_lookup.
    destruct (kw !! key) as [v|]; [|done].
    destruct (truthy v) eqn:Hv; [by rewrite Hv|done].
Qed.

(** X2: filters that are all truthy are transmitted as they are. *)
Theorem _remove_empty_kwargs_all_truthy (kw : kwargs) :
  map_Forall (λ _ value, truthy value = true) kw →
  _remove_empty_kwargs kw = kw.
Proof.
  intros Hall. apply map_eq. intros key. rewrite _remove_empty_kwargs_lookup.
  destruct (kw !! key) as [v|] eqn:Hk; [|done].
  by rewrite (Hall key v Hk).
Qed.

Lemma _remove_empty_kwargs_all_truthy_witness :
  _remove_empty_kwargs (countstats_kwargs (PStr "UC1"))
  = countstats_kwargs (PStr "UC1").
Proof.
  apply (_remove_empty_kwargs_all_truthy (countstats_kwargs (PStr "UC1"))).
  unfold countstats_kwargs. apply map_Forall_insert_2; [reflexivity|].
  apply map_Forall_singleton. reflexivity.
Defined.

(** ** [_split_list], again *)

(** X3: a chunk size of zero is refused with [ValueError], and a negative
    one gives no chunk at all, whatever the list holds. *)
Theorem _split_list_not_positive {A : Type} (l : list A) (n : Z) :
  n ≤ 0 →
  _split_list l n = if n =? 0 then Raise ValueError else Ret [].
Proof.
  intros Hn. unfold _split_list, py_range.
  destruct (Z.eqb_spec n 0) as [->|Hne]; [done|].
  destruct (Z.ltb_spec 0 n); [lia|]. simpl.
  assert ((0 - Z.of_nat (length l) - n - 1) / - n ≤ 0) as Hcount.
  { assert ((0 - Z.of_nat (length l) - n - 1) / - n < 1); [|lia].
    apply Z.div_lt_upper_bound; lia. }
  unfold seqZ. replace (Z.to_nat _) with 0%nat by lia. done.
Qed.

Lemma _split_list_not_positive_witness :
  _split_list [1; 2; 3] (-2) = if -2 =? 0 then Raise ValueError else Ret [].
Proof. apply (_split_list_not_positive [1; 2; 3] (-2)). lia. Defined.

(** X4: the element at position [i] of the list is at position [i mod n]
    of chunk [i / n]. *)
Theorem _split_list_lookup {A : Type} (l : list A) (n i : nat) (x : A) :
  (0 < n)%nat →
  l !! i = Some x →
  ∃ split_list chunk,
    _split_list l (Z.of_nat n) = Ret split_list
    ∧ split_list !! (i / n)%nat = Some chunk
    ∧ chunk !! (i mod n)%nat = Some x.
Proof.
  intros Hn Hi. exists (chunks n l), (take n (drop (i / n * n) l)).
  split; [rewrite _split_list_chunks by lia; by rewrite Nat2Z.id|].
  pose proof (chunk_count_bounds n (length l) Hn) as [Hlo Hhi].
  pose proof (lookup_lt_Some _ _ _ Hi) as Hlen.
  pose proof (Nat.div_mod_eq i n) as Hdm.
  pose proof (Nat.mod_upper_bound i n ltac:(lia)) as Hmod.
  split.
  - rewrite chunks_lookup. case_decide as Hk; [done|]. exfalso. nia.
  - rewrite lookup_take_lt by done. rewrite lookup_drop.
    rewrite <- Hi. f_equal. lia.
Qed.

Lemma _split_list_lookup_witness :
  ∃ split_list chunk,
    _split_list ["a"; "b"; "c"; "d"; "e"] (Z.of_nat 2) = Ret split_list
    ∧ split_list !! (3 / 2)%nat = Some chunk
    ∧ chunk !! (3 mod 2)%nat = Some "d".
Proof.
  apply (_split_list_lookup ["a"; "b"; "c"; "d"; "e"] 2 3 "d");
    [lia | reflexivity].
Defined.

(** X5: a list that is not empty and no longer than the chunk size comes
    back as a single chunk. *)
Theorem _split_list_short {A : Type} (l : list A) (n : Z) :
  (0 < length l)%nat →
  Z.of_nat (length l) ≤ n →
  _split_list l n = Ret [l].
Proof.
  intros Hl Hn. rewrite _split_list_chunks by lia. f_equal.
  unfold chunks, chunk_count. rewrite Z2Nat.id by lia.
  assert ((Z.of_nat (length l) + n - 1) / n = 1) as ->.
  { symmetry. apply (Z.div_unique _ _ 1 (Z.of_nat (length l) - 1)); lia. }
  simpl. rewrite drop_0, take_ge by lia. done.
Qed.

Lemma _split_list_short_witness :
  _split_list ["v1"; "v2"; "v3"] 50 = Ret [["v1"; "v2"; "v3"]].
Proof.
  apply (_split_list_short ["v1"; "v2"; "v3"] 50); simpl; lia.
Defined.

(** X6: an empty list has no chunk, for every chunk size but zero. *)
Theorem _split_list_nil {A : Type} (n : Z) :
  n ≠ 0 → _split_list (@nil A) n = Ret [].
Proof.
  intros Hn. destruct (Z_lt_le_dec 0 n).
  - rewrite _split_list_chunks by lia. unfold chunks, chunk_count. simpl length.
    rewrite Z2Nat.id by lia. rewrite Z.div_small by lia. done.
  - rewrite _split_list_not_positive by lia.
    by destruct (Z.eqb_spec n 0).
Qed.

Lemma _split_list_nil_witness : _split_list (@nil string) 50 = Ret [].
Proof. apply (_split_list_nil 50). lia. Defined.

(** ** What [_response] does to the crawler *)

Section KeepsPool.

Context {World : Type} (execute : request → World → reply * World).

Lemma keeps_pool_refl (c : crawler) : keeps_pool c c.
Proof. unfold keeps_pool. auto 10. Qed.

Lemma keeps_pool_trans (c1 c2 c3 : crawler) :
  keeps_pool c1 c2 → keeps_pool c2 c3 → keeps_pool c1 c3.
Proof.
  intros (Hp1 & Ht1 & Hi1 & Hs1 & Hc1) (Hp2 & Ht2 & Hi2 & Hs2 & Hc2).
  unfold keeps_pool. repeat split; [congruence | congruence | lia | |].
  - destruct Hs2 as [Hs2|Hs2]; [rewrite Hs2; exact Hs1|by right].
  - destruct Hc2 as [Hc2|(l & Hl & Hin)].
    + rewrite Hc2. exact Hc1.
    + right. exists l. split; [|done].
      destruct Hs1 as [Hs1|Hs1]; congruence.
Qed.

Lemma next_index (it : list_iterator) :
  (it_index it ≤ it_index (next it).2)%nat.
Proof.
  unfold next. destruct (it_seq it) as [l|]; [|done].
  destruct (l !! it_index it); simpl; lia.
Qed.

Lemma turn_keeps_pool (ep : endpoint) (kw : kwargs) (response : pyval)
    (st : state World) :
  keeps_pool (self st) (self (turn execute ep kw response st).2).
Proof.
  unfold turn. destruct (execute _ _) as [[v|status] w]; [apply keeps_pool_refl|].
  destruct (status =? 403); [|apply keeps_pool_refl].
  pose proof (next_cases (api_key_iter (self st))) as Hnext.
  pose proof (next_index (api_key_iter (self st))) as Hindex.
  destruct (next _) as [[key|e|] it]; simpl in *.
  - destruct Hnext as (l & Hl & Hkey & ->).
    unfold keeps_pool. simpl. repeat split; [lia|by left|].
    right. exists l. split; [done|]. by eapply list_elem_of_lookup_2.
  - destruct Hnext as [_ Hnone].
    unfold keeps_pool. simpl. repeat split; [done|by right|by left].
  - done.
Qed.

Lemma _response_loop_keeps_pool (fuel : nat) (resource : string) (kw : kwargs)
    (response : pyval) (st : state World) :
  keeps_pool (self st)
             (self (_response_loop execute fuel resource kw response st).2).
Proof.
  revert response st. induction fuel as [|fuel IH]; intros response st; simpl;
    destruct (truthy response); try apply keeps_pool_refl.
  unfold M_bind.
  destruct (endpoint_of resource) as [ep|] eqn:Hep.
  - rewrite (_response_body_supported _ _ ep) by done.
    pose proof (turn_keeps_pool ep kw response st) as Hturn.
    destruct (turn _ _ _ _ _) as [[v|e|] st1]; simpl in *; [|done|done].
    eapply keeps_pool_trans; [exact Hturn|apply IH].
  - rewrite _response_body_unsupported by done. apply IH.
Qed.

End KeepsPool.

(** X7: whatever the API answers and however long it goes on, [_response]
    leaves the number of workers and the thread flag alone, never moves
    the key iterator backwards or onto another list, and has at the end
    the session it had or one built with a key of the pool. *)
Theorem _response_keeps_pool {World : Type}
    (execute : request → World → reply * World) (fuel : nat) (resource : string)
    (kw : kwargs) (st : state World) :
  keeps_pool (self st) (self (_response execute fuel resource kw st).2).
Proof. apply _response_loop_keeps_pool. Qed.

(** ** [_video_desc], again *)

Section EndlessPages.

Context {World : Type}.

Lemma _response_always (page : pyval) (resource : string) (ep : endpoint)
    (kw : kwargs) (c : crawler) (w : World) (fuel : nat) :
  endpoint_of resource = Some ep →
  truthy page = true →
  _response (always (Response page)) (S fuel) resource kw
    {| self := c; world := w |}
  = (Ret page, {| self := c; world := w |}).
Proof.
  intros Hep Hpage. rewrite (_response_S _ _ _ ep) by done.
  unfold turn, always. simpl. by rewrite Hpage.
Qed.

Lemma _video_desc_loop_endless (page : pyval) (vs : list pyval)
    (ch_id upload_id : pyval) (rfuel fuel : nat) :
  has_next_page page = true →
  video_dicts page = Ret vs →
  ∀ (token : pyval) (video_dict_list : list pyval) (c : crawler) (w : World),
    (_video_desc_loop (always (Response page)) rfuel fuel ch_id upload_id token
       video_dict_list {| self := c; world := w |}).1
    = OutOfFuel.
Proof.
  intros Hpage Hvs. induction fuel as [|fuel IH]; intros token acc c w; [done|].
  cbn [_video_desc_loop]. unfold M_bind at 1.
  destruct rfuel as [|rfuel]; [done|].
  destruct (has_next_page_token page Hpage) as (ks & Hks & Hmem & Htok).
  rewrite (_response_always _ _ playlistItems)
    by eauto using video_dicts_truthy.
  unfold M_bind, lift. rewrite Hvs, Hks, Hmem, Htok. apply IH.
Qed.

End EndlessPages.

(** X8: against an API whose every page of playlist items names a next
    page, [_video_desc] never returns, however much fuel it is given. *)
Theorem _video_desc_endless {World : Type} (page : pyval) (vs : list pyval)
    (ch_id upload_id : pyval) (c : crawler) (w : World) (fuel : nat) :
  has_next_page page = true →
  video_dicts page = Ret vs →
  (_video_desc (always (Response page)) fuel ch_id upload_id
     {| self := c; world := w |}).1
  = OutOfFuel.
Proof.
  intros Hpage Hvs. unfold _video_desc.
  by apply (_video_desc_loop_endless page vs).
Qed.

Lemma _video_desc_endless_witness :
  (_video_desc (always (Response (sample_page (Some "T1") ["v1"]))) 25
     (PStr "UC1") (PStr "UU1") {| self := sample_crawler; world := tt |}).1
  = OutOfFuel.
Proof.
  apply (_video_desc_endless (sample_page (Some "T1") ["v1"]) [sample_video "v1"]);
    reflexivity.
Defined.

(** X9: a non-empty response that the comprehension of [_video_desc]
    cannot read (no 'items', an item without 'snippet', ...) ends
    [_video_desc] with the exception of the comprehension, after the one
    call that fetched it. *)
Theorem _video_desc_unreadable (c : crawler) (ch_id upload_id response : pyval)
    (e : exn) (tail : list reply) (log : list request) (fuel : nat) :
  truthy response = true →
  video_dicts response = Raise e →
  (0 < fuel)%nat →
  _video_desc scripted fuel ch_id upload_id
    {| self := c; world := {| pending := Response response :: tail; calls := log |} |}
  = (Raise e,
     {| self := c;
        world := {| pending := tail;
                    calls := log ++ [page_request c upload_id (PStr "")] |} |}).
Proof.
  intros Htruthy Hvs Hfuel. unfold _video_desc.
  destruct fuel as [|fuel]; [lia|].
  cbn [_video_desc_loop]. unfold M_bind at 1.
  rewrite (_response_scripted_first _ playlistItems) by (done || lia).
  unfold M_bind, lift. by rewrite Hvs.
Qed.

Lemma _video_desc_unreadable_witness :
  _video_desc scripted 1 (PStr "UC1") (PStr "UU1")
    {| self := sample_crawler;
       world := {| pending := Response (PDict [("kind", PStr "youtube#error")]) :: [];
                   calls := [] |} |}
  = (Raise (KeyError "items"),
     {| self := sample_crawler;
        world := {| pending := [];
                    calls := [] ++ [page_request sample_crawler (PStr "UU1")
                                                 (PStr "")] |} |}).
Proof.
  apply (_video_desc_unreadable sample_crawler (PStr "UC1") (PStr "UU1")
           (PDict [("kind", PStr "youtube#error")]) (KeyError "items") [] [] 1);
    [reflexivity | reflexivity | lia].
Defined.

(** ** [channel_countstats], again *)

Section CountStatsMore.

(** What the body of the loop puts in an entry besides the ratio. *)
Lemma channel_countstats_body_own (view_count view_count' : option Z)
    (response entry : pyval) :
  channel_countstats_body view_count response = Ret (entry, view_count') →
  ∃ ch_id statistics_response views videos,
    subscript response "id" = Ret ch_id
    ∧ subscript response "statistics" = Ret statistics_response
    ∧ (let* v := subscript statistics_response "viewCount" in py_int v) = Ret views
    ∧ (let* v := subscript statistics_response "videoCount" in py_int v) = Ret videos
    ∧ subscript entry "ch_id" = Ret ch_id
    ∧ subscript entry "viewCount" = Ret (PInt views)
    ∧ subscript entry "videoCount" = Ret (PInt videos)
    ∧ view_count' = Some views.
Proof.
  unfold channel_countstats_body.
  destruct (subscript response "id") as [ch_id| |]; simpl; try done.
  destruct (subscript response "statistics") as [stats| |]; simpl; try done.
  destruct (subscript stats "hiddenSubscriberCount") as [hidden| |]; simpl; try done.
  destruct (if is_True hidden then _ else _) as [[sc ratio]| |]; simpl; try done.
  destruct (res_bind (subscript stats "viewCount") _) as [views| |] eqn:Hviews;
    simpl; try done.
  destruct (res_bind (subscript stats "videoCount") _) as [videos| |] eqn:Hvideos;
    simpl; try done.
  intros [= <- <-]. exists ch_id, stats, views, videos. by repeat split.
Qed.

Lemma channel_countstats_fold_entries (items : list pyval) :
  ∀ (result_list results : list pyval) (view_count view_count' : option Z),
    foldM (λ '(result_list, view_count) response,
             let* (entry, view_count) :=
               channel_countstats_body view_count response in
             Ret (result_list ++ [entry], view_count))
          (result_list, view_count) items
    = Ret (results, view_count') →
    ∃ entries,
      results = result_list ++ entries
      ∧ Forall2 (λ response entry,
                   ∃ vc vc', channel_countstats_body vc response = Ret (entry, vc'))
                items entries.
Proof.
  induction items as [|item items IH]; intros acc results vc vc' H; simpl in H.
  - injection H as <- <-. exists []. split; [by rewrite app_nil_r|constructor].
  - destruct (channel_countstats_body vc item) as [[entry vc1]| |] eqn:Hbody;
      simpl in H; try done.
    destruct (IH _ _ _ _ H) as (entries & -> & Hentries).
    exists (entry :: entries). split; [by rewrite <- app_assoc|].
    constructor; eauto.
Qed.


End CountStatsMore.

(** X10: when the first channel of the response shows its subscribers
    ([hiddenSubscriberCount] is not [True]) and has a subscriber count that
    [int] accepts, [channel_countstats] raises [UnboundLocalError] for
    [view_count], whatever the count is and whatever channels follow. *)
Theorem channel_countstats_first_shown (c : crawler) (id : pyval)
    (response statistics_response ch_id hidden : pyval) (subscribers : Z)
    (rest : list pyval) (extra : list (string * pyval)) (tail : list reply)
    (log : list request) (fuel : nat) :
  (0 < fuel)%nat →
  subscript response "id" = Ret ch_id →
  subscript response "statistics" = Ret statistics_response →
  subscript statistics_response "hiddenSubscriberCount" = Ret hidden →
  is_True hidden = false →
  (let* v := subscript statistics_response "subscriberCount" in py_int v)
  = Ret subscribers →
  (channel_countstats scripted fuel id
     {| self := c;
        world := {| pending := Response (PDict (("items", PList (response :: rest))
                                                :: extra)) :: tail;
                    calls := log |} |}).1
  = Raise (UnboundLocalError "view_count").
Proof.
  intros Hfuel Hid Hstat Hhidden Hshown Hsubs.
  rewrite channel_countstats_scripted by done. simpl.
  unfold channel_countstats_items. simpl. unfold channel_countstats_body.
  rewrite Hid. simpl. rewrite Hstat. simpl. rewrite Hhidden. simpl.
  rewrite Hshown, Hsubs. done.
Qed.

Lemma channel_countstats_first_shown_witness :
  (channel_countstats scripted 1 (PStr "UC1,UC2")
     {| self := sample_crawler;
        world := {| pending :=
                      Response (PDict (("items",
                                        PList (sample_channel "UC1" false "0" "9" "1"
                                               :: [sample_channel "UC2" true
                                                                  "5" "6" "7"]))
                                       :: [])) :: [];
                    calls := [] |} |}).1
  = Raise (UnboundLocalError "view_count").
Proof.
  apply (channel_countstats_first_shown sample_crawler (PStr "UC1,UC2")
           (sample_channel "UC1" false "0" "9" "1")
           (PDict [("viewCount", PStr "9"); ("subscriberCount", PStr "0");
                   ("hiddenSubscriberCount", PBool false);
                   ("videoCount", PStr "1")])
           (PStr "UC1") (PBool false) 0);
    [lia | reflexivity..].
Defined.



(** X12: when [channel_countstats] returns, it returns one entry per
    channel of the response, in order, and the id, the view count and the
    video count of each entry are those of its own channel. *)
Theorem channel_countstats_entries (c : crawler) (id : pyval)
    (items results : list pyval) (extra : list (string * pyval))
    (tail : list reply) (log : list request) (fuel : nat) :
  (0 < fuel)%nat →
  (channel_countstats scripted fuel id
     {| self := c;
        world := {| pending := Response (PDict (("items", PList items) :: extra))
                               :: tail;
                    calls := log |} |}).1
  = Ret results →
  Forall2 (λ response entry,
             ∃ ch_id statistics_response views videos,
               subscript response "id" = Ret ch_id
               ∧ subscript response "statistics" = Ret statistics_response
               ∧ (let* v := subscript statistics_response "viewCount" in py_int v)
                 = Ret views
               ∧ (let* v := subscript statistics_response "videoCount" in py_int v)
                 = Ret videos
               ∧ subscript entry "ch_id" = Ret ch_id
               ∧ subscript entry "viewCount" = Ret (PInt views)
               ∧ subscript entry "videoCount" = Ret (PInt videos))
          items results.
Proof.
  intros Hfuel Hrun. rewrite channel_countstats_scripted in Hrun by done.
  simpl in Hrun. unfold channel_countstats_items in Hrun.
  destruct (foldM _ _ items) as [[results' vc']| |] eqn:Hfold;
    simpl in Hrun; try done.
  injection Hrun as ->.
  destruct (channel_countstats_fold_entries items _ _ _ _ Hfold)
    as (entries & -> & Hentries).
  simpl. eapply Forall2_impl; [exact Hentries|].
  intros response entry (vc & vc1 & Hbody).
  destruct (channel_countstats_body_own _ _ _ _ Hbody)
    as (ch_id & stats & views & videos & H1 & H2 & H3 & H4 & H5 & H6 & H7 & _).
  exists ch_id, stats, views, videos. by repeat split.
Qed.

Lemma channel_countstats_entries_witness :
  Forall2 (λ response entry,
             ∃ ch_id statistics_response views videos,
               subscript response "id" = Ret ch_id
               ∧ subscript response "statistics" = Ret statistics_response
               ∧ (let* v := subscript statistics_response "viewCount" in py_int v)
                 = Ret views
               ∧ (let* v := subscript statistics_response "videoCount" in py_int v)
                 = Ret videos
               ∧ subscript entry "ch_id" = Ret ch_id
               ∧ subscript entry "viewCount" = Ret (PInt views)
               ∧ subscript entry "videoCount" = Ret (PInt videos))
          [sample_channel "UC0" true "1" "7" "1";
           sample_channel "UC1" false "100" "500" "3"]
          [PDict [("ch_id", PStr "UC0"); ("subscriberCount", PNone);
                  ("viewCount", PInt 7); ("videoCount", PInt 1);
                  ("sub_view_ratio", PNone)];
           PDict [("ch_id", PStr "UC1"); ("subscriberCount", PInt 100);
                  ("viewCount", PInt 500); ("videoCount", PInt 3);
                  ("sub_view_ratio", PFloat (7 # 100))]].
Proof.
  apply (channel_countstats_entries sample_crawler (PStr "UC0,UC1")
           [sample_channel "UC0" true "1" "7" "1";
            sample_channel "UC1" false "100" "500" "3"]
           _ [] [] [] 1); [lia | reflexivity].
Defined.

(** ** Comprehensions *)

Section Comprehensions.

Context {A B : Type} (f : A → res B).


Lemma mapM_raise (good : list A) (bad : A) (rest : list A) (ys : list B) (e : exn) :
  mapM f good = Ret ys → f bad = Raise e →
  mapM f (good ++ bad :: rest) = Raise e.
Proof.
  revert ys. induction good as [|x good IH]; intros ys Hgood Hbad; simpl.
  - by rewrite Hbad.
  - simpl in Hgood. destruct (f x) as [y| |]; simpl in *; try done.
    destruct (mapM f good) as [ys'| |] eqn:Hys; simpl in Hgood; try done.
    by rewrite (IH ys').
Qed.

End Comprehensions.



(** ** [channel_desc] *)

Section ChannelDesc.



End ChannelDesc.



(** ** [video_statistics] and [_id_to_stats] *)

Section VideoStatistics.

Lemma video_statistics_scripted (c : crawler) (kw : kwargs) (items : list pyval)
    (extra : list (string * pyval)) (tail : list reply) (log : list request)
    (fuel : nat) :
  (0 < fuel)%nat →
  video_statistics scripted fuel kw
    {| self := c;
       world := {| pending := Response (PDict (("items", PList items) :: extra))
                              :: tail;
                   calls := log |} |}
  = (mapM video_statistics_of items,
     {| self := c;
        world := {| pending := tail;
                    calls := log ++ [{| req_client := client c;
                                        req_endpoint := videos;
                                        req_kwargs := _remove_empty_kwargs kw |}]
                 |} |}).
Proof.
  intros Hfuel. unfold video_statistics, M_bind.
  by rewrite (_response_scripted_first _ videos).
Qed.

Lemma str_join_strings (sep : string) (ids : list string) :
  str_join sep (map PStr ids) = Ret (String.concat sep ids).
Proof.
  unfold str_join.
  assert (mapM (λ v, match v with PStr s => Ret s | _ => Raise TypeError end)
               (map PStr ids) = Ret ids) as ->; [|done].
  induction ids as [|id ids IH]; simpl; [done|]. by rewrite IH.
Qed.

End VideoStatistics.





(** X16: [_id_to_stats] on a list of ids that are strings asks the videos
    endpoint for part 'statistics' with the ids joined by commas as its id
    filter, and with no id filter at all when the joined string is empty
    (as for an empty list); an id that is not a string makes it raise
    [TypeError] before any call. *)
Theorem _id_to_stats_request (c : crawler) (ids : list string)
    (response : pyval) (tail : list reply) (log : list request) (fuel : nat) :
  truthy response = true →
  (0 < fuel)%nat →
  (∃ kw,
     calls (world (_id_to_stats scripted fuel (map PStr ids)
                     {| self := c;
                        world := {| pending := Response response :: tail;
                                    calls := log |} |}).2)
     = log ++ [{| req_client := client c; req_endpoint := videos;
                  req_kwargs := kw |}]
     ∧ kw !! "part" = Some (PStr "statistics")
     ∧ kw !! "id" = (if String.eqb (String.concat "," ids) ""
                     then None else Some (PStr (String.concat "," ids)))
     ∧ dom kw ⊆ {[ "id"; "part" ]})
  ∧ ∀ (before after : list pyval) (v : pyval) (st : state script),
      Forall (λ x, ∃ s, x = PStr s) before →
      (∀ s, v ≠ PStr s) →
      _id_to_stats scripted fuel (before ++ v :: after) st = (Raise TypeError, st).
Proof.
  intros Htruthy Hfuel. split.
  - exists (_remove_empty_kwargs (id_to_stats_kwargs (String.concat "," ids))).
    split; [|split; [|split]].
    + unfold _id_to_stats, M_bind, lift. rewrite str_join_strings.
      unfold video_statistics, M_bind.
      rewrite (_response_scripted_first _ videos) by done.
      reflexivity.
    + rewrite _remove_empty_kwargs_lookup. unfold id_to_stats_kwargs.
      rewrite lookup_insert_ne by done. by rewrite lookup_singleton_eq.
    + rewrite _remove_empty_kwargs_lookup. unfold id_to_stats_kwargs.
      rewrite lookup_insert_eq. simpl.
      by destruct (String.eqb (String.concat "," ids) "").
    + etrans; [apply subseteq_dom, _remove_empty_kwargs_idempotent|].
      unfold id_to_stats_kwargs. rewrite dom_insert_L, dom_singleton_L. done.
  - intros before after v st Hbefore Hv.
    unfold _id_to_stats, M_bind, lift.
    assert (str_join "," (before ++ v :: after) = Raise TypeError) as ->; [|done].
    unfold str_join.
    assert (∃ strs,
              mapM (λ v, match v with PStr s => Ret s | _ => Raise TypeError end)
                   before = Ret strs) as [strs Hstrs].
    { clear -Hbefore. induction Hbefore as [|x l [s ->] _ [strs IH]];
        [by exists []|]. exists (s :: strs). simpl. by rewrite IH. }
    rewrite (mapM_raise _ before v after strs TypeError); [done|done|].
    destruct v; try done. by destruct (Hv s).
Qed.

Lemma _id_to_stats_request_witness :
  (∃ kw,
     calls (world (_id_to_stats scripted 1 (map PStr ["v1"; "v2"])
                     {| self := sample_crawler;
                        world := {| pending := Response (PDict [("items", PList [])])
                                               :: [];
                                    calls := [] |} |}).2)
     = [] ++ [{| req_client := client sample_crawler; req_endpoint := videos;
                 req_kwargs := kw |}]
     ∧ kw !! "part" = Some (PStr "statistics")
     ∧ kw !! "id" = (if String.eqb (String.concat "," ["v1"; "v2"]) ""
                     then None else Some (PStr (String.concat "," ["v1"; "v2"])))
     ∧ dom kw ⊆ {[ "id"; "part" ]})
  ∧ ∀ (before after : list pyval) (v : pyval) (st : state script),
      Forall (λ x, ∃ s, x = PStr s) before →
      (∀ s, v ≠ PStr s) →
      _id_to_stats scripted 1 (before ++ v :: after) st = (Raise TypeError, st).
Proof.
  apply (_id_to_stats_request sample_crawler ["v1"; "v2"]
           (PDict [("items", PList [])]) [] [] 1); [reflexivity | lia].
Defined.

(** ** The pooled operations *)

Section Pools.

Variable in_process : ∀ A : Type, M (World := script) A → M (World := script) A.

Lemma mapM_M_cons {A B : Type} (f : A → M (World := script) B) (x : A)
    (l : list A) (st : state script) :
  mapM_M f (x :: l) st
  = match f x st with
    | (Ret y, st') =>
        match mapM_M f l st' with
        | (Ret ys, st'') => (Ret (y :: ys), st'')
        | (Raise e, st'') => (Raise e, st'')
        | (OutOfFuel, st'') => (OutOfFuel, st'')
        end
    | (Raise e, st') => (Raise e, st')
    | (OutOfFuel, st') => (OutOfFuel, st')
    end.
Proof.
  cbn [mapM_M]. unfold M_bind at 1.
  destruct (f x st) as [[y|e|] st']; [|done|done].
  unfold M_bind, ret. by destruct (mapM_M f l st') as [[ys|e|] st''].
Qed.

Lemma channel_video_desc_scripted (c : crawler) (id : pyval) (items : list pyval)
    (ch_uploads_id : list pyval) (extra : list (string * pyval))
    (tail : list reply) (log : list request) (fuel : nat) :
  (0 < fuel)%nat →
  mapM ch_uploads_of items = Ret ch_uploads_id →
  channel_video_desc scripted in_process fuel id
    {| self := c;
       world := {| pending := Response (PDict (("items", PList items) :: extra))
                              :: tail;
                   calls := log |} |}
  = (let st := {| self := c;
                  world := {| pending := tail;
                              calls := log ++ [{| req_client := client c;
                                                  req_endpoint := channels;
                                                  req_kwargs :=
                                                    _remove_empty_kwargs
                                                      (content_details_kwargs id)
                                               |}] |} |} in
     if processes c <? 1 then (Raise ValueError, st)
     else mapM_M (video_desc_task scripted in_process fuel (thread c))
                 ch_uploads_id st).
Proof.
  intros Hfuel Hitems. unfold channel_video_desc. unfold M_bind at 1.
  rewrite (_response_scripted_first _ channels) by done.
  unfold M_bind at 1. unfold lift at 1. cbn [subscript dict_get String.eqb].
  simpl. rewrite Hitems. simpl.
  unfold M_bind at 1, make_pool. simpl.
  by destruct (processes c <? 1).
Qed.

Lemma video_desc_task_threads (fuel : nat) (u : uploads) (st : state script) :
  video_desc_task scripted in_process fuel true (uploads_entry u) st
  = _video_desc scripted fuel (up_ch_id u) (up_upload_id u) st.
Proof. reflexivity. Qed.

Lemma uploads_loop_threads (fuel : nat) (c : crawler) (tail : list reply) :
  ∀ (chans : list uploads) (log : list request),
    Forall (uploads_ok fuel) chans →
    mapM_M (video_desc_task scripted in_process fuel true)
           (map uploads_entry chans)
      {| self := c;
         world := {| pending := concat (map uploads_replies chans) ++ tail;
                     calls := log |} |}
    = (Ret (map uploads_result chans),
       {| self := c;
          world := {| pending := tail;
                      calls := log ++ concat (map (uploads_requests c) chans)
                   |} |}).
Proof.
  induction chans as [|u chans IH]; intros log Hok.
  - simpl. by rewrite app_nil_r.
  - apply Forall_cons in Hok as [Hu Hok].
    destruct Hu as (Hpages & Hlast & Hvideos & Hfuel).
    cbn [map concat]. rewrite mapM_M_cons, video_desc_task_threads.
    unfold _video_desc, uploads_replies at 1. rewrite <- app_assoc.
    rewrite (_video_desc_loop_pages c (up_ch_id u) (up_upload_id u) (up_last u)
               (concat (map uploads_replies chans) ++ tail) Hlast
               (up_pages u) (up_videos u) (PStr "") [] log fuel fuel)
      by (done || lia).
    rewrite IH by done. by rewrite <- app_assoc.
Qed.

Lemma chunks_map {A B : Type} (f : A → B) (n : nat) (l : list A) :
  chunks n (map f l) = map (map f) (chunks n l).
Proof.
  unfold chunks. rewrite length_map, map_map. apply map_ext. intros k.
  change (map f) with (fmap (M := list) f). by rewrite fmap_take, fmap_drop.
Qed.

Lemma stats_loop_threads (fuel : nat) (c : crawler) (tail : list reply) :
  (0 < fuel)%nat →
  ∀ (cs : list (list string)) (pages : list (list pyval * list (string * pyval)))
    (stats : list (list pyval)) (log : list request),
    length cs = length pages →
    Forall2 (λ page entries, mapM video_statistics_of page.1 = Ret entries)
            pages stats →
    mapM_M (id_to_stats_task scripted in_process fuel true) (map (map PStr) cs)
      {| self := c;
         world := {| pending := map (λ page, Response (videos_response page)) pages
                                ++ tail;
                     calls := log |} |}
    = (Ret stats,
       {| self := c;
          world := {| pending := tail;
                      calls := log ++ map (stats_request c) cs |} |}).
Proof.
  intros Hfuel cs. induction cs as [|chunk cs IH];
    intros [|[items extra] pages] stats log Hlen Hstats; simpl in Hlen; try done.
  - apply Forall2_nil_inv_l in Hstats as ->. simpl. by rewrite app_nil_r.
  - apply Forall2_cons_inv_l in Hstats as (entries & stats' & Hentries & Hstats & ->).
    cbn [map]. rewrite mapM_M_cons.
    unfold id_to_stats_task at 1, apply_async_get, _id_to_stats.
    unfold M_bind at 1, lift at 1.
    rewrite str_join_strings. unfold videos_response at 1. cbn [fst snd app].
    rewrite video_statistics_scripted by done.
    simpl in Hentries. rewrite Hentries.
    rewrite (IH pages stats') by (done || lia).
    unfold stats_request at 2. by rewrite <- app_assoc.
Qed.

End Pools.

(** X17: with fewer than one worker configured, [channel_video_desc]
    raises [ValueError] when it makes its pool, after the call that looked
    up the upload playlists and before any playlist is read, whichever
    kind of pool is asked for. *)
Theorem channel_video_desc_no_workers
    (in_process : ∀ A : Type, M (World := script) A → M (World := script) A)
    (c : crawler) (id : pyval) (items ch_uploads_id : list pyval)
    (extra : list (string * pyval)) (tail : list reply) (log : list request)
    (fuel : nat) :
  (0 < fuel)%nat →
  processes c < 1 →
  mapM ch_uploads_of items = Ret ch_uploads_id →
  channel_video_desc scripted in_process fuel id
    {| self := c;
       world := {| pending := Response (PDict (("items", PList items) :: extra))
                              :: tail;
                   calls := log |} |}
  = (Raise ValueError,
     {| self := c;
        world := {| pending := tail;
                    calls := log ++ [{| req_client := client c;
                                        req_endpoint := channels;
                                        req_kwargs :=
                                          _remove_empty_kwargs
                                            (content_details_kwargs id) |}] |} |}).
Proof.
  intros Hfuel Hworkers Hitems.
  rewrite (channel_video_desc_scripted in_process c id items ch_uploads_id)
    by done.
  cbv zeta. by destruct (Z.ltb_spec (processes c) 1); [|lia].
Qed.

Lemma channel_video_desc_no_workers_witness :
  channel_video_desc scripted (λ _ task, task) 1 (PStr "UC1")
    {| self := set_client
                 {| api_key_iter := iter ["k1"]; client := build "k1";
                    processes := 0; thread := true |} (build "k1");
       world := {| pending := Response (PDict (("items",
                                                PList [sample_channel_uploads
                                                         "UC1" "UU1"])
                                               :: [])) :: [];
                   calls := [] |} |}
  = (Raise ValueError,
     {| self := set_client
                  {| api_key_iter := iter ["k1"]; client := build "k1";
                     processes := 0; thread := true |} (build "k1");
        world := {| pending := [];
                    calls := [] ++ [{| req_client := build "k1";
                                       req_endpoint := channels;
                                       req_kwargs :=
                                         _remove_empty_kwargs
                                           (content_details_kwargs (PStr "UC1"))
                                    |}] |} |}).
Proof.
  apply (channel_video_desc_no_workers (λ _ task, task)
           (set_client {| api_key_iter := iter ["k1"]; client := build "k1";
                          processes := 0; thread := true |} (build "k1"))
           (PStr "UC1") [sample_channel_uploads "UC1" "UU1"]
           [PDict [("ch_id", PStr "UC1"); ("uploads_id", PStr "UU1")]]
           [] [] [] 1); [lia | simpl; lia | reflexivity].
Defined.

(** X18: with a thread pool, [channel_video_desc] looks up the upload
    playlists with one call, then reads the playlists one after the other
    in the order of the channels of that response, each to its last page
    before the next is begun, and returns one result per channel in the
    same order. *)
Theorem channel_video_desc_threads
    (in_process : ∀ A : Type, M (World := script) A → M (World := script) A)
    (c : crawler) (id : pyval) (items : list pyval) (chans : list uploads)
    (extra : list (string * pyval)) (tail : list reply) (log : list request)
    (fuel : nat) :
  (0 < fuel)%nat →
  thread c = true →
  1 ≤ processes c →
  mapM ch_uploads_of items = Ret (map uploads_entry chans) →
  Forall (uploads_ok fuel) chans →
  channel_video_desc scripted in_process fuel id
    {| self := c;
       world := {| pending := Response (PDict (("items", PList items) :: extra))
                              :: concat (map uploads_replies chans) ++ tail;
                   calls := log |} |}
  = (Ret (map uploads_result chans),
     {| self := c;
        world := {| pending := tail;
                    calls := (log ++ [{| req_client := client c;
                                         req_endpoint := channels;
                                         req_kwargs :=
                                           _remove_empty_kwargs
                                             (content_details_kwargs id) |}])
                             ++ concat (map (uploads_requests c) chans) |} |}).
Proof.
  intros Hfuel Hthread Hworkers Hitems Hok.
  rewrite (channel_video_desc_scripted in_process c id items
             (map uploads_entry chans)) by done.
  cbv zeta. destruct (Z.ltb_spec (processes c) 1); [lia|].
  rewrite Hthread. by apply uploads_loop_threads.
Qed.

Lemma channel_video_desc_threads_witness :
  channel_video_desc scripted (λ _ task, task) 2 (PStr "UC1,UC2")
    {| self := sample_thread_crawler;
       world := {| pending :=
                     Response (PDict (("items",
                                       PList [sample_channel_uploads "UC1" "UU1";
                                              sample_channel_uploads "UC2" "UU2"])
                                      :: []))
                     :: concat (map uploads_replies
                                    [sample_uploads "UC1" "UU1";
                                     sample_uploads "UC2" "UU2"]) ++ [];
                   calls := [] |} |}
  = (Ret (map uploads_result [sample_uploads "UC1" "UU1";
                              sample_uploads "UC2" "UU2"]),
     {| self := sample_thread_crawler;
        world := {| pending := [];
                    calls := ([] ++ [{| req_client := client sample_thread_crawler;
                                        req_endpoint := channels;
                                        req_kwargs :=
                                          _remove_empty_kwargs
                                            (content_details_kwargs
                                               (PStr "UC1,UC2")) |}])
                             ++ concat (map (uploads_requests sample_thread_crawler)
                                            [sample_uploads "UC1" "UU1";
                                             sample_uploads "UC2" "UU2"]) |} |}).
Proof.
  apply (channel_video_desc_threads (λ _ task, task) sample_thread_crawler
           (PStr "UC1,UC2")
           [sample_channel_uploads "UC1" "UU1"; sample_channel_uploads "UC2" "UU2"]
           [sample_uploads "UC1" "UU1"; sample_uploads "UC2" "UU2"] [] [] [] 2).
  - lia.
  - reflexivity.
  - simpl. lia.
  - reflexivity.
  - repeat constructor; simpl; lia.
Defined.

(** X19: with a thread pool, [video_statistics_by_channel] asks for the
    statistics of a channel's videos chunk by chunk: one call to the
    videos endpoint per chunk of 50 ids, ceil(n/50) calls in all, each
    with the ids of its chunk joined by commas, in the order of the
    chunks, and it returns the answers in that order under the id of the
    channel. *)
Theorem ch_videos_stats_of_threads
    (in_process : ∀ A : Type, M (World := script) A → M (World := script) A)
    (c : crawler) (ch_id : pyval) (ids : list string)
    (pages : list (list pyval * list (string * pyval)))
    (stats : list (list pyval)) (tail : list reply) (log : list request)
    (fuel : nat) :
  (0 < fuel)%nat →
  length pages = chunk_count 50 (length ids) →
  Forall2 (λ page entries, mapM video_statistics_of page.1 = Ret entries)
          pages stats →
  ch_videos_stats_of scripted in_process fuel true
    (PDict [("ch_id", ch_id); ("video_id", PList (map PStr ids))])
    {| self := c;
       world := {| pending := map (λ page, Response (videos_response page)) pages
                              ++ tail;
                   calls := log |} |}
  = (Ret (PDict [("ch_id", ch_id); ("video_stats", PList (map PList stats))]),
     {| self := c;
        world := {| pending := tail;
                    calls := log ++ map (stats_request c) (chunks 50 ids) |} |})
  ∧ Z.of_nat (length (map (stats_request c) (chunks 50 ids)))
    = (Z.of_nat (length ids) + 49) / 50
  ∧ concat (chunks 50 ids) = ids.
Proof.
  intros Hfuel Hlen Hstats. split; [|split].
  - unfold ch_videos_stats_of. unfold M_bind at 1. unfold lift at 1.
    cbn [subscript dict_get String.eqb Ascii.eqb Bool.eqb].
    unfold M_bind at 1. unfold lift at 1.
    cbn [subscript dict_get String.eqb Ascii.eqb Bool.eqb res_bind iterate].
    unfold M_bind at 1. unfold lift at 1.
    unfold video_split_list. rewrite _split_list_chunks by lia.
    change (Z.to_nat 50) with 50%nat. rewrite chunks_map.
    unfold M_bind at 1.
    rewrite (stats_loop_threads in_process fuel c tail Hfuel (chunks 50 ids)
               pages stats log) by (by rewrite ?length_chunks).
    reflexivity.
  - rewrite length_map, length_chunks. unfold chunk_count.
    rewrite Z2Nat.id; [f_equal; lia|]. apply Z.div_pos; lia.
  - apply concat_chunks. lia.
Qed.

Lemma ch_videos_stats_of_threads_witness :
  ch_videos_stats_of scripted (λ _ task, task) 1 true
    (PDict [("ch_id", PStr "UC1"); ("video_id", PList (map PStr ["v1"; "v2"]))])
    {| self := sample_thread_crawler;
       world := {| pending := map (λ page, Response (videos_response page))
                                  [([sample_video_item "v1" "10";
                                     sample_video_item "v2" "20"], [])]
                              ++ [];
                   calls := [] |} |}
  = (Ret (PDict [("ch_id", PStr "UC1");
                 ("video_stats",
                  PList (map PList
                             [[PDict [("videoId", PStr "v1");
                                      ("statistics",
                                       PDict [("viewCount", PStr "10")])];
                               PDict [("videoId", PStr "v2");
                                      ("statistics",
                                       PDict [("viewCount", PStr "20")])]]]))]),
     {| self := sample_thread_crawler;
        world := {| pending := [];
                    calls := [] ++ map (stats_request sample_thread_crawler)
                                       (chunks 50 ["v1"; "v2"]) |} |})
  ∧ Z.of_nat (length (map (stats_request sample_thread_crawler)
                          (chunks 50 ["v1"; "v2"])))
    = (Z.of_nat (length ["v1"; "v2"]) + 49) / 50
  ∧ concat (chunks 50 ["v1"; "v2"]) = ["v1"; "v2"].
Proof.
  apply (ch_videos_stats_of_threads (λ _ task, task) sample_thread_crawler
           (PStr "UC1") ["v1"; "v2"]
           [([sample_video_item "v1" "10"; sample_video_item "v2" "20"], [])]
           [[PDict [("videoId", PStr "v1");
                    ("statistics", PDict [("viewCount", PStr "10")])];
             PDict [("videoId", PStr "v2");
                    ("statistics", PDict [("viewCount", PStr "20")])]]]
           [] [] 1).
  - lia.
  - reflexivity.
  - repeat constructor.
Defined.

(** X20: [video_statistics_by_channel] hands its keyword arguments to
    [channel_video_desc], which takes [id] only: any other keyword makes
    it raise [TypeError] before anything is called. *)
Theorem video_statistics_by_channel_keyword {World : Type}
    (execute : request → World → reply * World)
    (in_process : ∀ A : Type, M (World := World) A → M (World := World) A)
    (fuel : nat) (kw : kwargs) (key : string) (st : state World) :
  key ≠ "id" →
  is_Some (kw !! key) →
  video_statistics_by_channel execute in_process fuel kw st = (Raise TypeError, st).
Proof.
  intros Hkey Hsome. unfold video_statistics_by_channel, M_bind, lift.
  unfold channel_video_desc_args.
  rewrite bool_decide_eq_false_2; [done|].
  intros Hsub. apply elem_of_dom in Hsome. apply Hsub in Hsome. set_solver.
Qed.

Lemma video_statistics_by_channel_keyword_witness :
  video_statistics_by_channel scripted (λ _ task, task) 1
    {[ "id" := PStr "UC1"; "part" := PStr "statistics" ]}
    {| self := sample_crawler; world := {| pending := []; calls := [] |} |}
  = (Raise TypeError,
     {| self := sample_crawler; world := {| pending := []; calls := [] |} |}).
Proof.
  apply (video_statistics_by_channel_keyword scripted (λ _ task, task) 1
           {[ "id" := PStr "UC1"; "part" := PStr "statistics" ]} "part").
  - discriminate.
  - exists (PStr "statistics"). reflexivity.
Defined.

(** ** The guard of [statistics_sum] *)

Section Digits.








End Digits.



(** ** [video_statistics_by_channel] from end to end *)

Section ByChannel.

Variable in_process : ∀ A : Type, M (World := script) A → M (World := script) A.

Lemma ch_videos_stats_of_scripted (c : crawler) (cv : channel_videos)
    (tail : list reply) (log : list request) (fuel : nat) :
  (0 < fuel)%nat →
  length (cv_pages cv) = chunk_count 50 (length (cv_ids cv)) →
  Forall2 (λ page entries, mapM video_statistics_of page.1 = Ret entries)
          (cv_pages cv) (cv_stats cv) →
  ch_videos_stats_of scripted in_process fuel true (ch_video_dict cv)
    {| self := c;
       world := {| pending := stats_replies cv ++ tail; calls := log |} |}
  = (Ret (stats_result cv),
     {| self := c;
        world := {| pending := tail; calls := log ++ stats_requests c cv |} |}).
Proof.
  intros Hfuel Hlen Hstats.
  unfold ch_videos_stats_of, ch_video_dict. unfold M_bind at 1. unfold lift at 1.
  cbn [subscript dict_get String.eqb Ascii.eqb Bool.eqb].
  unfold M_bind at 1. unfold lift at 1.
  cbn [subscript dict_get String.eqb Ascii.eqb Bool.eqb res_bind iterate].
  unfold M_bind at 1. unfold lift at 1.
  unfold video_split_list. rewrite _split_list_chunks by lia.
  change (Z.to_nat 50) with 50%nat. rewrite chunks_map.
  unfold M_bind at 1, stats_replies.
  rewrite (stats_loop_threads in_process fuel c tail Hfuel (chunks 50 (cv_ids cv))
             (cv_pages cv) (cv_stats cv) log) by (by rewrite ?length_chunks).
  reflexivity.
Qed.

Lemma ch_video_dict_of_result (cv : channel_videos) :
  mapM (λ item, subscript item "videoId") (concat (up_videos (cv_uploads cv)))
  = Ret (map PStr (cv_ids cv)) →
  ch_video_dict_of (uploads_result (cv_uploads cv)) = Ret (ch_video_dict cv).
Proof.
  intros Hids. unfold ch_video_dict_of, uploads_result.
  cbn [subscript dict_get String.eqb Ascii.eqb Bool.eqb res_bind iterate].
  by rewrite Hids.
Qed.

Lemma ch_video_dicts (fuel : nat) (cvs : list channel_videos) :
  Forall (channel_videos_ok fuel) cvs →
  mapM ch_video_dict_of (map (λ cv, uploads_result (cv_uploads cv)) cvs)
  = Ret (map ch_video_dict cvs).
Proof.
  induction 1 as [|cv cvs (_ & Hids & _) _ IH]; [done|].
  cbn [map mapM]. rewrite ch_video_dict_of_result by done.
  cbn [res_bind]. by rewrite IH.
Qed.

Lemma stats_by_channel_loop (fuel : nat) (c : crawler) (tail : list reply) :
  (0 < fuel)%nat →
  ∀ (cvs : list channel_videos) (log : list request),
    Forall (channel_videos_ok fuel) cvs →
    mapM_M (ch_videos_stats_of scripted in_process fuel true)
           (map ch_video_dict cvs)
      {| self := c;
         world := {| pending := concat (map stats_replies cvs) ++ tail;
                     calls := log |} |}
    = (Ret (map stats_result cvs),
       {| self := c;
          world := {| pending := tail;
                      calls := log ++ concat (map (stats_requests c) cvs) |} |}).
Proof.
  intros Hfuel. induction cvs as [|cv cvs IH]; intros log Hok.
  - simpl. by rewrite app_nil_r.
  - apply Forall_cons in Hok as [Hcv Hok].
    destruct Hcv as (_ & _ & Hlen & Hstats).
    cbn [map concat]. rewrite mapM_M_cons, <- app_assoc.
    rewrite ch_videos_stats_of_scripted by done.
    rewrite IH by done. by rewrite <- app_assoc.
Qed.

End ByChannel.

(** X22: with a thread pool, [video_statistics_by_channel] works in two
    passes over the channels of the response: it first reads the upload
    playlist of every channel to its last page, and only then asks for
    the statistics, channel by channel and chunk of 50 ids by chunk; it
    returns one result per channel, in the order of the channels. *)
Theorem video_statistics_by_channel_threads
    (in_process : ∀ A : Type, M (World := script) A → M (World := script) A)
    (c : crawler) (id : pyval) (items : list pyval) (cvs : list channel_videos)
    (extra : list (string * pyval)) (tail : list reply) (log : list request)
    (fuel : nat) :
  (0 < fuel)%nat →
  thread c = true →
  1 ≤ processes c →
  mapM ch_uploads_of items = Ret (map (λ cv, uploads_entry (cv_uploads cv)) cvs) →
  Forall (channel_videos_ok fuel) cvs →
  video_statistics_by_channel scripted in_process fuel {[ "id" := id ]}
    {| self := c;
       world := {| pending :=
                     Response (PDict (("items", PList items) :: extra))
                     :: concat (map (λ cv, uploads_replies (cv_uploads cv)) cvs)
                     ++ concat (map stats_replies cvs) ++ tail;
                   calls := log |} |}
  = (Ret (map stats_result cvs),
     {| self := c;
        world :=
          {| pending := tail;
             calls := ((log ++ [{| req_client := client c;
                                   req_endpoint := channels;
                                   req_kwargs :=
                                     _remove_empty_kwargs
                                       (content_details_kwargs id) |}])
                       ++ concat (map (λ cv, uploads_requests c (cv_uploads cv)) cvs))
                      ++ concat (map (stats_requests c) cvs) |} |}).
Proof.
  intros Hfuel Hthread Hworkers Hitems Hok.
  unfold video_statistics_by_channel. unfold M_bind at 1. unfold lift at 1.
  unfold channel_video_desc_args.
  rewrite bool_decide_eq_true_2 by (by rewrite dom_singleton_L).
  rewrite lookup_singleton_eq. cbn [default].
  unfold M_bind at 1.
  rewrite (channel_video_desc_scripted in_process c id items
             (map (λ cv, uploads_entry (cv_uploads cv)) cvs)) by done.
  cbv zeta. destruct (Z.ltb_spec (processes c) 1) as [|_]; [lia|].
  rewrite Hthread.
  rewrite <- (map_map cv_uploads uploads_entry).
  rewrite <- (map_map cv_uploads uploads_replies).
  rewrite (uploads_loop_threads in_process fuel c
             (concat (map stats_replies cvs) ++ tail) (map cv_uploads cvs)).
  2:{ apply Forall_map. eapply Forall_impl; [exact Hok|]. by intros cv [H _]. }
  rewrite !map_map.
  unfold M_bind at 1. unfold lift at 1.
  rewrite (ch_video_dicts fuel cvs Hok).
  unfold M_bind at 1, make_pool. cbn [self].
  destruct (Z.ltb_spec (processes c) 1) as [|_]; [lia|].
  rewrite Hthread.
  by rewrite (stats_by_channel_loop in_process fuel c tail Hfuel cvs).
Qed.

Lemma video_statistics_by_channel_threads_witness :
  video_statistics_by_channel scripted (λ _ task, task) 2 {[ "id" := PStr "UC1,UC2" ]}
    {| self := sample_thread_crawler;
       world := {| pending :=
                     Response (PDict (("items",
                                       PList [sample_channel_uploads "UC1" "UU1";
                                              sample_channel_uploads "UC2" "UU2"])
                                      :: []))
                     :: concat (map (λ cv, uploads_replies (cv_uploads cv))
                                    [sample_channel_videos "UC1" "UU1";
                                     sample_channel_videos "UC2" "UU2"])
                     ++ concat (map stats_replies
                                    [sample_channel_videos "UC1" "UU1";
                                     sample_channel_videos "UC2" "UU2"]) ++ [];
                   calls := [] |} |}
  = (Ret (map stats_result [sample_channel_videos "UC1" "UU1";
                            sample_channel_videos "UC2" "UU2"]),
     {| self := sample_thread_crawler;
        world :=
          {| pending := [];
             calls := (([] ++ [{| req_client := client sample_thread_crawler;
                                  req_endpoint := channels;
                                  req_kwargs :=
                                    _remove_empty_kwargs
                                      (content_details_kwargs (PStr "UC1,UC2")) |}])
                       ++ concat (map (λ cv, uploads_requests sample_thread_crawler
                                               (cv_uploads cv))
                                      [sample_channel_videos "UC1" "UU1";
                                       sample_channel_videos "UC2" "UU2"]))
                      ++ concat (map (stats_requests sample_thread_crawler)
                                     [sample_channel_videos "UC1" "UU1";
                                      sample_channel_videos "UC2" "UU2"]) |} |}).
Proof.
  apply (video_statistics_by_channel_threads (λ _ task, task) sample_thread_crawler
           (PStr "UC1,UC2")
           [sample_channel_uploads "UC1" "UU1"; sample_channel_uploads "UC2" "UU2"]
           [sample_channel_videos "UC1" "UU1"; sample_channel_videos "UC2" "UU2"]
           [] [] [] 2).
  - lia.
  - reflexivity.
  - simpl. lia.
  - reflexivity.
  - repeat constructor; simpl; lia.
Defined.

(** ** [__init__] *)

(** X23: a crawler cannot be built on an empty list of keys, [__init__]
    raising [StopIteration] then and only then; on any other list it
    builds its session with the first key and keeps the rest of the list,
    from the second key on, for the rotations. *)
Theorem __init___keys (api_key_list : list string) (workers : Z) (threads : bool) :
  (__init__ api_key_list workers threads = Raise StopIteration ↔ api_key_list = [])
  ∧ ∀ key keys,
      api_key_list = key :: keys →
      ∃ c,
        __init__ api_key_list workers threads = Ret c
        ∧ client c = build key
        ∧ processes c = workers
        ∧ thread c = threads
        ∧ ∀ j : nat,
            rotated c (S j) = None ↔ (length keys ≤ j)%nat.
Proof.
  split.
  - destruct api_key_list; [done|]. split; discriminate.
  - intros key keys ->. eexists. split; [reflexivity|]. repeat split.
    + unfold rotated. simpl. intros H.
      destruct (keys !! j) eqn:Hj; [done|]. by apply lookup_ge_None in Hj.
    + intros Hj. unfold rotated. simpl.
      by rewrite (proj2 (lookup_ge_None keys j) Hj).
Qed.
